(** * ensjs-v3 [getProfile.ts]: a shallow embedding and its properties

    The file follows [packages/ensjs/src/getProfile.ts]: the two call
    builders and resolvers ([getDataForName], [getDataForAddress]), the record
    formatter ([formatRecords]), the index shortcut ([graphFetch]) and the
    dispatching entry points.  JavaScript exceptions are an error monad,
    the awaited external calls are oracles of an environment record whose
    invocations are logged, and the one object that is mutated in place (the
    options object handed to [graphFetch]) lives in a small heap. *)

From Stdlib Require Import NArith Ascii String.
From Stdlib.Strings Require Import Byte.
From stdpp Require Import base option list strings gmap.

Set Default Proof Using "Type".

(** ** Exceptions *)

(** What a JavaScript [throw] carries, as far as this file tells them apart. *)
Inductive exn : Type :=
  | TypeError                (* property access on undefined/null, call of a non-function *)
  | InvalidArgument          (* ethers' INVALID_ARGUMENT and the codecs' own failures *)
  | ExternalFailure (msg : string).   (* a rejected await of an external capability *)

Inductive result (A : Type) : Type :=
  | Ok (a : A)
  | Throw (e : exn).
Arguments Ok {A} a.
Arguments Throw {A} e.

(** Sequencing of throwing computations: the first [Throw] wins. *)
Definition rbind {A B} (r : result A) (f : A → result B) : result B :=
  match r with Ok a => f a | Throw e => Throw e end.

Definition rmap {A B} (f : A → B) (r : result A) : result B :=
  match r with Ok a => Ok (f a) | Throw e => Throw e end.

Notation "x <- r ;; k" := (rbind r (λ x, k))
  (at level 100, r at next level, right associativity,
   format "'[v' x  <-  r  ;; '/' k ']'").

Definition is_ok {A} (r : result A) : bool :=
  match r with Ok _ => true | Throw _ => false end.

(** ** JavaScript values and objects *)

(** The values an options object or an index response holds in a field. *)
Inductive jsval : Type :=
  | VUndef
  | VNull
  | VBool (b : bool)
  | VStr (s : string)
  | VArr (l : list string).

#[global] Instance jsval_eq_dec : EqDecision jsval.
Proof. solve_decision. Defined.

(** JavaScript truthiness: an array is truthy even when it is empty. *)
Definition truthy (v : jsval) : bool :=
  match v with
  | VUndef | VNull => false
  | VBool b => b
  | VStr s => bool_decide (s ≠ "")
  | VArr _ => true
  end.

(** [o[k]] on an object: a missing property reads as [undefined]. *)
Definition prop (o : gmap string jsval) (k : string) : jsval :=
  default VUndef (o !! k).

(** ** JavaScript string methods *)

Module Str.

(** [value.substring(n)] / [value.slice(n)] for [0 <= n]. *)
Fixpoint substringFrom (n : nat) (s : string) : string :=
  match n, s with
  | O, _ => s
  | S n', String _ s' => substringFrom n' s'
  | S _, EmptyString => ""
  end.

(** [String.prototype.toLowerCase] on the ASCII range. *)
Definition lowerChar (c : ascii) : ascii :=
  let n := N_of_ascii c in
  if ((65 <=? n) && (n <=? 90))%N then ascii_of_N (n + 32) else c.

Fixpoint toLowerCase (s : string) : string :=
  match s with
  | EmptyString => EmptyString
  | String c s' => String (lowerChar c) (toLowerCase s')
  end.

(** [s.includes(c)] for a one-character needle. *)
Fixpoint includesChar (c : ascii) (s : string) : bool :=
  match s with
  | EmptyString => false
  | String d s' => bool_decide (d = c) || includesChar c s'
  end.

(** [s.split(c)[0]]: what precedes the first [c] (all of [s] without one). *)
Fixpoint splitHead (c : ascii) (s : string) : string :=
  match s with
  | EmptyString => EmptyString
  | String d s' => if bool_decide (d = c) then EmptyString
                   else String d (splitHead c s')
  end.

(** [s.replace(c, '')] with a string pattern: the first [c] only. *)
Fixpoint removeFirst (c : ascii) (s : string) : string :=
  match s with
  | EmptyString => EmptyString
  | String d s' => if bool_decide (d = c) then s'
                   else String d (removeFirst c s')
  end.

End Str.

(** ** The ethers helpers used by the file *)

Module Hex.

(** ethers' [HexCharacters = "0123456789abcdef"]. *)
Definition HexCharacters : list ascii :=
  ["0"; "1"; "2"; "3"; "4"; "5"; "6"; "7";
   "8"; "9"; "a"; "b"; "c"; "d"; "e"; "f"]%char.

Definition hexChar (n : N) : ascii :=
  nth (N.to_nat n) HexCharacters "0"%char.

(** [hexlify] of a byte array: ["0x"] then two characters per byte,
    [HexCharacters[(v & 0xf0) >> 4] + HexCharacters[v & 0x0f]]. *)
Fixpoint hexDigits (bs : list byte) : string :=
  match bs with
  | [] => ""
  | b :: bs' =>
      let v := Byte.to_N b in
      String (hexChar (N.shiftr (N.land v 240) 4))
        (String (hexChar (N.land v 15)) (hexDigits bs'))
  end.

Definition hexlify (bs : list byte) : string := "0x" +:+ hexDigits bs.

Definition isHexDigit (c : ascii) : bool :=
  let n := N_of_ascii c in
  ((48 <=? n) && (n <=? 57) || (65 <=? n) && (n <=? 70)
   || (97 <=? n) && (n <=? 102))%N.

Fixpoint allHexDigits (s : string) : bool :=
  match s with
  | EmptyString => true
  | String c s' => isHexDigit c && allHexDigits s'
  end.

(** [isHexString(value)] without a length: [/^0x[0-9A-Fa-f]*$/]. *)
Definition isHexString (s : string) : bool :=
  match s with
  | String "0" (String "x" s') => allHexDigits s'
  | _ => false
  end.

(** The loop [while (offset < value.length && value[offset] === "0")]. *)
Fixpoint skipZeros (s : string) : string :=
  match s with
  | String "0" s' => skipZeros s'
  | _ => s
  end.

(** [hexStripZeros]: throws on anything that is not a hex string. *)
Definition hexStripZeros (value : string) : result string :=
  if isHexString value
  then Ok ("0x" +:+ skipZeros (Str.substringFrom 2 value))
  else Throw InvalidArgument.

Definition hexValue (c : ascii) : option N :=
  let n := N_of_ascii c in
  if ((48 <=? n) && (n <=? 57))%N then Some (n - 48)%N
  else if ((65 <=? n) && (n <=? 70))%N then Some (n - 55)%N
  else if ((97 <=? n) && (n <=? 102))%N then Some (n - 87)%N
  else None.

(** Node's [Buffer.from(s, 'hex')]: whole pairs of hex digits, up to the
    first pair that is not one. *)
Fixpoint bufferFromHex (s : string) : list byte :=
  match s with
  | String a (String b s') =>
      match hexValue a, hexValue b with
      | Some h, Some l =>
          match Byte.of_N (16 * h + l) with
          | Some x => x :: bufferFromHex s'
          | None => []
          end
      | _, _ => []
      end
  | _ => []
  end.

(** All bytes of a byte string are zero (the empty one included). *)
Definition allZero (bs : list byte) : bool :=
  forallb (λ b, Byte.eqb b x00) bs.

(** All digits of a hex string after its prefix are ["0"]. *)
Fixpoint allZeroDigits (s : string) : bool :=
  match s with
  | EmptyString => true
  | String c s' => bool_decide (c = "0"%char) && allZeroDigits s'
  end.

End Hex.

(** ethers' ABI coder reads a type string with [ParamType.from] before it
    encodes anything. *)
Module Abi.

(** The tuple nesting [parseParamType] is in after reading [s] from nesting
    [depth]: a "(" descends into a component, a ")" returns to the parent,
    and a ")" without a parent is an unexpected character ([None]). *)
Fixpoint nesting (depth : nat) (s : string) : option nat :=
  match s with
  | EmptyString => Some depth
  | String c s' =>
      if Ascii.eqb c "(" then nesting (S depth) s'
      else if Ascii.eqb c ")" then
        match depth with
        | O => None
        | S d => nesting d s'
        end
      else nesting depth s'
  end.

(** The parser's last check: a node that still has a parent at the end of
    the string is an "unexpected eof". *)
Definition closesTuples (type : string) : bool :=
  bool_decide (nesting 0 type = Some 0).

End Abi.

(** ** Data model *)

(** [DataItem.type], also the [type] of a call descriptor. *)
Inductive kind : Type := KText | KAddr | KContenthash.

#[global] Instance kind_eq_dec : EqDecision kind.
Proof. solve_decision. Defined.

(** The string the source writes for a kind ('text', 'addr', 'contenthash'). *)
Definition kindName (k : kind) : string :=
  match k with
  | KText => "text"
  | KAddr => "addr"
  | KContenthash => "contenthash"
  end.

(** An element of [calls]: [{ key, data, type }].  [D] is what [data] holds:
    the encoded call on the forward path, a resolver-data object on the
    reverse path. *)
Record Call (D : Type) : Type := mkCall {
  c_key : string;
  c_data : D;
  c_type : kind
}.
Arguments mkCall {D} _ _ _.
Arguments c_key {D} _.
Arguments c_data {D} _.
Arguments c_type {D} _.

Record DataItem : Type := mkDataItem {
  key : string;
  type : kind;
  coin : option string;
  value : string
}.

#[global] Instance DataItem_eq_dec : EqDecision DataItem.
Proof. solve_decision. Defined.

(** [returnedResponse]: an absent property is [None], [contentHash: null] is
    [Some None]. *)
Record Records : Type := mkRecords {
  contentHash : option (option string);
  texts : option (list DataItem);
  coinTypes : option (list DataItem)
}.

(** What [ENS.getName] resolves to, as far as the file reads it. *)
Record NameResult : Type := mkNameResult {
  nr_name : string;
  nr_match : bool
}.

(** The [name] property of a result: a string, or (on the early return of
    [getProfileFromAddress]) the whole object [getName] returned. *)
Inductive nameval : Type :=
  | NameStr (s : string)
  | NameObj (n : NameResult).

(** The objects the entry points return; a property a given path does not
    set is [None], [records: null] is [Some None]. *)
Record ProfileResult : Type := mkProfileResult {
  pr_name : option nameval;
  pr_address : option string;
  pr_records : option (option Records);
  pr_match : option bool
}.

(** ** External capabilities *)

(** An entry of [formatsByCoinType]. *)
Record Format : Type := mkFormat {
  fmt_name : string;
  fmt_encoder : list byte → result string
}.

(** An argument handed to [encodeFunctionData]. *)
Inductive Arg : Type :=
  | AStr (s : string)
  | ABytesArray (l : list string).

(** The module-level imports: ethers' ABI coder and [namehash], the
    address-encoder table and [hexEncodeName].  [decodeBytes x] is the byte
    array that [defaultAbiCoder.decode(['bytes'], x)[0]] hexlifies. *)
Record Codecs : Type := mkCodecs {
  decodeBytes : string → result (list byte);
  decodeString : string → result string;
  decodeBytesArray : string → result (list string);
  abiEncode : string → string → result string;
  namehash : string → result string;
  hexEncodeName : string → result string;
  formatsByCoinType : gmap string Format
}.

(** What ethers' coder does with a type string whose tuples do not close:
    [encode] throws while it parses the type, whatever the value. *)
Definition checksTypes (L : Codecs) : Prop :=
  ∀ type v, Abi.closesTuples type = false →
            is_ok (abiEncode L type v) = false.

(** [makeResolverData]'s result: [{ sig, data: [{ dataType, data }] }]. *)
Record ResolverArg : Type := mkResolverArg {
  dataType : string;
  ra_data : string
}.

Record ResolverData : Type := mkResolverData {
  sig : string;
  rd_data : list ResolverArg
}.

Record PublicResolver : Type := mkPublicResolver {
  encodeFunctionData : string → list Arg → result string
}.

Record UniversalResolver : Type := mkUniversalResolver {
  resolve : string → string → result string;
  reverse : string → list ResolverData → result (string * list string)
}.

Record Contracts : Type := mkContracts {
  getPublicResolver : result PublicResolver;
  getUniversalResolver : result UniversalResolver
}.

(** An element of the index response's [domains]. *)
Record Domain : Type := mkDomain {
  resolver : option (gmap string jsval)
}.

Record InternalENS : Type := mkENS {
  contracts : option Contracts;
  gqlRequest : string → result (list Domain);
  getName : string → result NameResult
}.

(** ** Effects: a heap of option objects and a log of awaited calls *)

Inductive event : Type :=
  | EvGetPublicResolver
  | EvGetUniversalResolver
  | EvResolve (encodedName data : string)
  | EvReverse (encodedNode : string) (calls : list ResolverData)
  | EvGraph (name : string)
  | EvGetName (address : string).

Record world : Type := mkWorld {
  heap : list (gmap string jsval);
  log : list event
}.

Definition M (A : Type) : Type := world → result A * world.

Definition ret {A} (a : A) : M A := λ w, (Ok a, w).

Definition bind {A B} (m : M A) (f : A → M B) : M B := λ w,
  match m w with
  | (Ok a, w') => f a w'
  | (Throw e, w') => (Throw e, w')
  end.

Notation "x <~ m ;; k" := (bind m (λ x, k))
  (at level 100, m at next level, right associativity,
   format "'[v' x  <~  m  ;; '/' k ']'").

(** A pure, possibly throwing computation. *)
Definition lift {A} (r : result A) : M A := λ w, (r, w).

(** An awaited external call: logged, then its outcome. *)
Definition await {A} (ev : event) (r : result A) : M A :=
  λ w, (r, mkWorld (heap w) (log w ++ [ev])).

Definition load (l : nat) : M (gmap string jsval) :=
  λ w, (match heap w !! l with Some o => Ok o | None => Throw TypeError end, w).

Definition store (l : nat) (o : gmap string jsval) : M unit :=
  λ w, (Ok (), mkWorld (<[l := o]> (heap w)) (log w)).

(** An object literal: a fresh heap cell. *)
Definition alloc (o : gmap string jsval) : M nat :=
  λ w, (Ok (length (heap w)), mkWorld (heap w ++ [o]) (log w)).

(** [x.f] on a value that may be [undefined]. *)
Definition defined {A} (x : option A) : result A :=
  match x with Some a => Ok a | None => Throw TypeError end.

(** ** formatRecords *)

Section Formatter.
Context (L : Codecs) {D : Type}.

(** Lines 186-191: decode as bytes, [None] (the [return null]) when
    [hexStripZeros] leaves ["0x"]. *)
Definition decodeUnlessZero (item : string) : result (option string) :=
  bs <- decodeBytes L item;;
  let decodedFromAbi := Hex.hexlify bs in
  stripped <- Hex.hexStripZeros decodedFromAbi;;
  Ok (if bool_decide (stripped = "0x") then None else Some decodedFromAbi).

(** The callback of [data.map]: [None] is a returned [null]. *)
Definition formatItem (c : Call D) (item : string) : result (option DataItem) :=
  match c_type c with
  | KText =>
      v <- decodeString L item;;
      Ok (if bool_decide (v = "") then None
          else Some (mkDataItem (c_key c) KText None v))
  | KAddr =>
      d <- decodeUnlessZero item;;
      match d with
      | None => Ok None
      | Some decodedFromAbi =>
          match formatsByCoinType L !! c_key c with
          | Some format =>
              v <- fmt_encoder format
                     (Hex.bufferFromHex (Str.substringFrom 2 decodedFromAbi));;
              Ok (Some (mkDataItem (c_key c) KAddr (Some (fmt_name format)) v))
          | None => Ok None
          end
      end
  | KContenthash =>
      d <- decodeUnlessZero item;;
      Ok (mkDataItem (c_key c) KContenthash None <$> d)
  end.

(** [data.map((item, i) => ... calls[i] ...)] from index [i] on. *)
Fixpoint mapItems (i : nat) (data : list string) (calls : list (Call D))
    : result (list (option DataItem)) :=
  match data with
  | [] => Ok []
  | item :: rest =>
      c <- defined (calls !! i);;
      r <- formatItem c item;;
      rs <- mapItems (S i) rest calls;;
      Ok (r :: rs)
  end.

(** The two [filter]s after the map keep the non-null items. *)
Definition returnedRecords (data : list string) (calls : list (Call D))
    : result (list DataItem) :=
  rmap (omap id) (mapItems 0 data calls).

Definition ofKind (k : kind) (rs : list DataItem) : list DataItem :=
  filter (λ x, type x = k) rs.

Definition contentHashBucket (v : jsval) (rs : list DataItem)
    : result (option (option string)) :=
  match v with
  | VStr s =>
      stripped <- Hex.hexStripZeros s;;
      Ok (Some (if bool_decide (stripped = "0x") then None else Some s))
  | _ =>
      if truthy v
      then Ok (Some (value <$> head (ofKind KContenthash rs)))
      else Ok None
  end.

Definition formatRecords (data : list string) (calls : list (Call D))
    (options : gmap string jsval) : result Records :=
  rs <- returnedRecords data calls;;
  ch <- contentHashBucket (prop options "contentHash") rs;;
  Ok (mkRecords ch
        (if truthy (prop options "texts") then Some (ofKind KText rs) else None)
        (if truthy (prop options "coinTypes") then Some (ofKind KAddr rs) else None)).

End Formatter.

(** A JavaScript array is an object, hence truthy whatever it holds. *)
Definition arrayTruthy {A} (l : list A) : bool := true.

(** [calls.findIndex((x) => x.key === '60')]; [None] is the [-1]. *)
Definition findIndex60 {D} (calls : list (Call D)) : option nat :=
  fst <$> list_find (λ x, c_key x = "60") calls.

(** ** The resolvers *)

Section Resolvers.
Context (L : Codecs).

(** [defaultAbiCoder.decode(['bytes'], data[i])[0]]; on a slot that is
    [undefined] (index [-1] or past the end) the coder's [arrayify] reads a
    property of [undefined], a TypeError. *)
Definition decodeSlot (data : list string) (i : option nat) : result string :=
  match i ≫= (data !!.) with
  | Some item => rmap Hex.hexlify (decodeBytes L item)
  | None => Throw TypeError
  end.

(** [await ENS.contracts?.getX()]: the getter is called and awaited when
    there is a [contracts] object; without one the chain stops at
    [undefined] and nothing is called. *)
Definition getContract {A} (ENS : InternalENS) (ev : event)
    (f : Contracts → result A) : M (option A) :=
  match contracts ENS with
  | Some c => await ev (rmap Some (f c))
  | None => ret None
  end.

(** *** getDataForName *)

Definition encodeData (publicResolver : option PublicResolver)
    (sig : string) (args : list Arg) : result string :=
  pr <- defined publicResolver;;
  encodeFunctionData pr sig args.

(** [recordArray.forEach((item) => calls.push({ key, data, type }))]. *)
Fixpoint addCalls (publicResolver : option PublicResolver)
    (calls : list (Call string)) (recordArray : list string)
    (recordType : kind) (functionArgs name : string)
    : result (list (Call string)) :=
  match recordArray with
  | [] => Ok calls
  | item :: rest =>
      node <- namehash L name;;
      data <- encodeData publicResolver (kindName recordType +:+ functionArgs)
                [AStr node; AStr item];;
      addCalls publicResolver (calls ++ [mkCall item data recordType]) rest
        recordType functionArgs name
  end.

(** [field && addCalls(field, ...)]: a truthy field that is no array has
    no [forEach]. *)
Definition addCallsIf (publicResolver : option PublicResolver)
    (calls : list (Call string)) (field : jsval)
    (recordType : kind) (functionArgs name : string)
    : result (list (Call string)) :=
  if truthy field then
    match field with
    | VArr recordArray =>
        addCalls publicResolver calls recordArray recordType functionArgs name
    | _ => Throw TypeError
    end
  else Ok calls.

(** Lines 33-75 of [getDataForName]: the call list. *)
Definition forwardCalls (publicResolver : option PublicResolver)
    (name : string) (options : gmap string jsval)
    : result (list (Call string)) :=
  calls <- addCallsIf publicResolver [] (prop options "texts")
             KText "(bytes32,string)" name;;
  calls <- addCallsIf publicResolver calls (prop options "coinTypes")
             KAddr "(bytes32,uint256)" name;;
  calls <- match prop options "contentHash" with
           | VBool true =>
               data <- encodeData publicResolver "contenthash(bytes32)"
                         [AStr name];;
               Ok (calls ++ [mkCall "contentHash" data KContenthash])
           | _ => Ok calls
           end;;
  if negb (arrayTruthy (filter (λ x, c_key x = "60") calls)) then
    data <- encodeData publicResolver "addr(bytes32,uint256)"
              [AStr name; AStr "60"];;
    Ok (calls ++ [mkCall "60" data KAddr])
  else Ok calls.

Definition getDataForName (ENS : InternalENS) (name : string)
    (options : nat) : M ProfileResult :=
  publicResolver <~ getContract ENS EvGetPublicResolver getPublicResolver;;
  universalResolver <~
    getContract ENS EvGetUniversalResolver getUniversalResolver;;
  opts <~ load options;;
  calls <~ lift (forwardCalls publicResolver name opts);;
  data <~ lift (encodeData publicResolver "multicall(bytes[])"
                  [ABytesArray (c_data <$> calls)]);;
  ur <~ lift (defined universalResolver);;
  encodedName <~ lift (hexEncodeName L name);;
  resolver <~ await (EvResolve encodedName data) (resolve ur encodedName data);;
  recordData <~ lift (decodeBytesArray L resolver);;
  address <~ lift (decodeSlot recordData (findIndex60 calls));;
  records <~ lift (formatRecords L recordData calls opts);;
  ret (mkProfileResult None (Some address) (Some (Some records)) None).

(** *** getDataForAddress *)

(** [dataType && data ? [{ dataType, data: encode([dataType], [data]) }] : []]. *)
Definition makeResolverData (sig : string) (dataType data : option string)
    : result ResolverData :=
  match dataType, data with
  | Some dt, Some d =>
      if bool_decide (dt ≠ "") && bool_decide (d ≠ "") then
        enc <- abiEncode L dt d;;
        Ok (mkResolverData sig [mkResolverArg dt enc])
      else Ok (mkResolverData sig [])
  | _, _ => Ok (mkResolverData sig [])
  end.

(** [callArgs.split(',')[0].replace(')', '')]. *)
Definition callDataType (callArgs : string) : string :=
  Str.removeFirst ")" (Str.splitHead "," callArgs).

Fixpoint addReverseCalls (keyArray : list string)
    (callArray : list (Call ResolverData)) (type : kind) (callArgs : string)
    : result (list (Call ResolverData)) :=
  match keyArray with
  | [] => Ok callArray
  | item :: rest =>
      data <- makeResolverData (kindName type +:+ callArgs)
                (Some (callDataType callArgs)) (Some item);;
      addReverseCalls rest (callArray ++ [mkCall item data type]) type callArgs
  end.

Definition addReverseCallsIf (field : jsval)
    (callArray : list (Call ResolverData)) (type : kind) (callArgs : string)
    : result (list (Call ResolverData)) :=
  if truthy field then
    match field with
    | VArr keyArray => addReverseCalls keyArray callArray type callArgs
    | _ => Throw TypeError
    end
  else Ok callArray.

(** Lines 137-155 of [getDataForAddress]: the call list. *)
Definition reverseCalls (options : gmap string jsval)
    : result (list (Call ResolverData)) :=
  calls <- addReverseCallsIf (prop options "texts") []
             KText "(bytes32,string)";;
  calls <- addReverseCallsIf (prop options "coinTypes") calls
             KAddr "(bytes32,uint256)";;
  calls <- match prop options "contentHash" with
           | VBool true =>
               data <- makeResolverData "contenthash(bytes32)" None None;;
               Ok (calls ++ [mkCall "contentHash" data KContenthash])
           | _ => Ok calls
           end;;
  if negb (arrayTruthy (filter (λ x, c_key x = "60") calls)) then
    data <- makeResolverData "addr(bytes32,uint256)"
              (Some "uint256") (Some "60");;
    Ok (calls ++ [mkCall "60" data KAddr])
  else Ok calls.

Definition reverseNode (address : string) : string :=
  Str.substringFrom 2 (Str.toLowerCase address) +:+ ".addr.reverse".

Definition getDataForAddress (ENS : InternalENS) (address : string)
    (options : nat) : M ProfileResult :=
  universalResolver <~
    getContract ENS EvGetUniversalResolver getUniversalResolver;;
  opts <~ load options;;
  calls <~ lift (reverseCalls opts);;
  ur <~ lift (defined universalResolver);;
  encodedNode <~ lift (hexEncodeName L (reverseNode address));;
  let callData := c_data <$> calls in
  result <~ await (EvReverse encodedNode callData)
              (reverse ur encodedNode callData);;
  let name := result.1 in
  let data := result.2 in
  primary <~ lift (decodeSlot data (findIndex60 calls));;
  if bool_decide (primary ≠ Str.toLowerCase address) then
    ret (mkProfileResult (Some (NameStr name)) None (Some None) (Some false))
  else
    records <~ lift (formatRecords L data calls opts);;
    ret (mkProfileResult (Some (NameStr name)) None (Some (Some records))
           (Some true)).

(** *** graphFetch *)

(** The callback of [Object.keys(wantedRecords).forEach], run over [keys]. *)
Fixpoint concretize (wantedRecords : nat)
    (resolverResponse : option (gmap string jsval)) (keys : list string)
    : M unit :=
  match keys with
  | [] => ret ()
  | key :: rest =>
      o <~ load wantedRecords;;
      _ <~ match prop o key with
           | VBool true =>
               r <~ lift (defined resolverResponse);;
               store wantedRecords (<[key := prop r key]> o)
           | _ => ret ()
           end;;
      concretize wantedRecords resolverResponse rest
  end.

Definition graphFetch (ENS : InternalENS) (name : string)
    (wantedRecords : nat) : M nat :=
  response <~ await (EvGraph name) (gqlRequest ENS name);;
  resolverResponse <~ lift (rmap resolver (defined (head response)));;
  o <~ load wantedRecords;;
  _ <~ concretize wantedRecords resolverResponse (map_to_list o).*1;;
  ret wantedRecords.

(** *** The entry points *)

Definition allRecords : gmap string jsval :=
  {[ "contentHash" := VBool true; "texts" := VBool true;
     "coinTypes" := VBool true ]}.

(** [!options || (options && options.texts === true) ||
    options.coinTypes === true]. *)
Definition wantsAll (options : option nat) : M bool :=
  match options with
  | None => ret true
  | Some l =>
      o <~ load l;;
      ret (bool_decide (prop o "texts" = VBool true)
           || bool_decide (prop o "coinTypes" = VBool true))
  end.

(** [options || { contentHash: true, texts: true, coinTypes: true }]. *)
Definition optionsOrAll (options : option nat) : M nat :=
  match options with
  | Some l => ret l
  | None => alloc allRecords
  end.

Definition getProfileFromAddress (ENS : InternalENS) (address : string)
    (options : option nat) : M ProfileResult :=
  shortcut <~ wantsAll options;;
  if shortcut then
    name <~ await (EvGetName address) (getName ENS address);;
    if negb (nr_match name) then
      ret (mkProfileResult (Some (NameObj name)) None (Some None) (Some false))
    else
      wanted <~ optionsOrAll options;;
      wantedRecords <~ graphFetch ENS (nr_name name) wanted;;
      r <~ getDataForName ENS (nr_name name) wantedRecords;;
      ret (mkProfileResult (Some (NameStr (nr_name name))) None
             (pr_records r) (Some true))
  else
    l <~ lift (defined options);;
    getDataForAddress ENS address l.

Definition getProfileFromName (ENS : InternalENS) (name : string)
    (options : option nat) : M ProfileResult :=
  shortcut <~ wantsAll options;;
  if shortcut then
    wanted <~ optionsOrAll options;;
    wantedRecords <~ graphFetch ENS name wanted;;
    r <~ getDataForName ENS name wantedRecords;;
    ret (mkProfileResult None (pr_address r) (pr_records r) None)
  else
    l <~ lift (defined options);;
    getDataForName ENS name l.

(** The default export. *)
Definition getProfile (ENS : InternalENS) (nameOrAddress : string)
    (options : option nat) : M ProfileResult :=
  if Str.includesChar "." nameOrAddress
  then getProfileFromName ENS nameOrAddress options
  else getProfileFromAddress ENS nameOrAddress options.

End Resolvers.

(** ** A test double of the environment

    Used to run the functions on concrete inputs.  The layout of an
    ABI-encoded [bytes] and [bytes[]] is the contract ABI's; the digests and
    call encodings (which need keccak256) are stand-ins, and the address
    format of coin type 60 is plain lower-case hex. *)

Module Demo.

Definition byteOfN (n : N) : byte := default x00 (Byte.of_N n).

(** A [k]-byte big-endian integer. *)
Fixpoint beBytes (k : nat) (n : N) : list byte :=
  match k with
  | O => []
  | S k' => beBytes k' (n / 256) ++ [byteOfN (n mod 256)]
  end.

Definition beValue (bs : list byte) : N :=
  fold_left (λ acc b, acc * 256 + Byte.to_N b)%N bs 0%N.

Definition wordAt (off : N) (bs : list byte) : result N :=
  let w := take 32 (drop (N.to_nat off) bs) in
  if bool_decide (length w = 32) then Ok (beValue w) else Throw InvalidArgument.

Definition pad32 (bs : list byte) : list byte :=
  bs ++ replicate ((32 - length bs mod 32) mod 32) x00.

(** Length word and padded payload of one dynamic [bytes]. *)
Definition tailOf (payload : list byte) : list byte :=
  beBytes 32 (N.of_nat (length payload)) ++ pad32 payload.

Definition tailAt (off : N) (bs : list byte) : result (list byte) :=
  len <- wordAt off bs;;
  let body := take (N.to_nat len) (drop (N.to_nat off + 32) bs) in
  if bool_decide (length body = N.to_nat len) then Ok body
  else Throw InvalidArgument.

Definition encodeBytes (payload : list byte) : list byte :=
  beBytes 32 32 ++ tailOf payload.

Fixpoint offsets (start : N) (items : list (list byte)) : list byte :=
  match items with
  | [] => []
  | it :: rest =>
      beBytes 32 start
        ++ offsets (start + N.of_nat (length (tailOf it))) rest
  end.

Definition encodeBytesArray (items : list (list byte)) : list byte :=
  beBytes 32 32 ++ beBytes 32 (N.of_nat (length items))
    ++ offsets (32 * N.of_nat (length items)) items
    ++ concat (tailOf <$> items).

(** ethers' [arrayify] of a hex string. *)
Definition arrayify (s : string) : result (list byte) :=
  if Hex.isHexString s && Nat.even (String.length s)
  then Ok (Hex.bufferFromHex (Str.substringFrom 2 s))
  else Throw InvalidArgument.

Definition demoDecodeBytes (s : string) : result (list byte) :=
  bs <- arrayify s;;
  off <- wordAt 0 bs;;
  tailAt off bs.

Definition stringOfBytes (bs : list byte) : string :=
  string_of_list_ascii (ascii_of_byte <$> bs).

Definition bytesOfString (s : string) : list byte :=
  byte_of_ascii <$> list_ascii_of_string s.

Definition demoDecodeString (s : string) : result string :=
  rmap stringOfBytes (demoDecodeBytes s).

Fixpoint elementsAt (base : N) (i n : nat) (bs : list byte)
    : result (list string) :=
  match n with
  | O => Ok []
  | S n' =>
      off <- wordAt (base + 32 * N.of_nat i) bs;;
      body <- tailAt (base + off) bs;;
      rest <- elementsAt base (S i) n' bs;;
      Ok (Hex.hexlify body :: rest)
  end.

Definition demoDecodeBytesArray (s : string) : result (list string) :=
  bs <- arrayify s;;
  off <- wordAt 0 bs;;
  n <- wordAt off bs;;
  elementsAt (off + 32) 0 (N.to_nat n) bs.

(** Stand-ins for what needs keccak256 or the DNS wire format. *)
Definition demoNamehash (name : string) : result string :=
  Ok (Hex.hexlify (pad32 (bytesOfString name))).

Definition demoHexEncodeName (name : string) : result string :=
  Ok (Hex.hexlify (bytesOfString name)).

Definition demoAbiEncode (type v : string) : result string :=
  Ok (Hex.hexlify (bytesOfString (type +:+ ":" +:+ v))).

Definition argText (a : Arg) : string :=
  match a with
  | AStr s => s
  | ABytesArray l => String.concat "," l
  end.

Definition demoEncodeFunctionData (sig : string) (args : list Arg)
    : result string :=
  Ok (Hex.hexlify
        (bytesOfString (sig +:+ "|" +:+ String.concat ";" (argText <$> args)))).

Definition ETH : Format :=
  mkFormat "ETH" (λ bs, Ok (Hex.hexlify bs)).

Definition demoCodecs : Codecs :=
  mkCodecs demoDecodeBytes demoDecodeString demoDecodeBytesArray
    demoAbiEncode demoNamehash demoHexEncodeName {[ "60" := ETH ]}.

(** The same codecs with ethers' check of the type string in front of the
    encoder; on ["(bytes32"] the parser reaches the end of the string inside
    the tuple and throws INVALID_ARGUMENT ("unexpected eof"). *)
Definition checkedAbiEncode (type v : string) : result string :=
  if Abi.closesTuples type then demoAbiEncode type v
  else Throw InvalidArgument.

Definition checkedCodecs : Codecs :=
  mkCodecs demoDecodeBytes demoDecodeString demoDecodeBytesArray
    checkedAbiEncode demoNamehash demoHexEncodeName {[ "60" := ETH ]}.

(** One resolver answer per call: the ABI encoding of a [bytes]. *)
Definition answer (payload : list byte) : list byte := encodeBytes payload.

(** An environment whose resolver answers every batch with [answers],
    whose reverse registry names [revName], whose index holds [domains]
    and whose name lookup returns [lookup]. *)
Definition demoENS (answers : list (list byte)) (revName : string)
    (domains : list Domain) (lookup : NameResult) : InternalENS :=
  mkENS
    (Some (mkContracts
             (Ok (mkPublicResolver demoEncodeFunctionData))
             (Ok (mkUniversalResolver
                    (λ _ _, Ok (Hex.hexlify (encodeBytesArray answers)))
                    (λ _ _, Ok (revName, Hex.hexlify <$> answers))))))
    (λ _, Ok domains)
    (λ _, Ok lookup).

(** The world a caller starts from: its options object, if any, at
    location 0, and an empty log. *)
Definition start (options : option (gmap string jsval)) : world :=
  mkWorld (option_list options) [].

Definition optionsRef (options : option (gmap string jsval)) : option nat :=
  match options with Some _ => Some 0 | None => None end.

Definition addr1 : list byte :=
  [x12; x34; x56; x78; x9a; xbc; xde; xf0; x12; x34;
   x56; x78; x9a; xbc; xde; xf0; x12; x34; x56; x78].

(** [addr1] as a caller may write it, in upper case. *)
Definition upperAddr1 : string := "0x123456789ABCDEF0123456789ABCDEF012345678".

(** Two more addresses, twenty times the byte 0x41 and 0x42. *)
Definition addrA : list byte := replicate 20 x41.
Definition addrB : list byte := replicate 20 x42.
Definition hexA : string := "0x4141414141414141414141414141414141414141".

Definition demoPublicResolver : PublicResolver :=
  mkPublicResolver demoEncodeFunctionData.

(** Option objects of the examples. *)
Definition only60 : gmap string jsval := {[ "coinTypes" := VArr ["60"] ]}.

(** The reverse call list for [only60]. *)
Definition only60ReverseCalls : list (Call ResolverData) :=
  [mkCall "60"
     (mkResolverData "addr(bytes32,uint256)"
        [mkResolverArg "(bytes32" "0x28627974657333323a3630"])
     KAddr].

Definition text60coin60 : gmap string jsval :=
  {[ "texts" := VArr ["60"]; "coinTypes" := VArr ["60"] ]}.

Definition coins60and0 : gmap string jsval :=
  {[ "coinTypes" := VArr ["60"; "0"] ]}.

Definition noTexts : gmap string jsval := {[ "texts" := VArr [] ]}.

(** [{}] and [{ contentHash: true }]: requests that name no key. *)
Definition noKeys : gmap string jsval := ∅.
Definition onlyContentHash : gmap string jsval :=
  {[ "contentHash" := VBool true ]}.

Definition withContentHash : gmap string jsval :=
  {[ "coinTypes" := VArr ["60"]; "contentHash" := VBool true ]}.

Definition contentHashCall : Call unit := mkCall "contentHash" () KContenthash.

(** [addr1] written in lower case. *)
Definition lowerAddr1 : string := "0x123456789abcdef0123456789abcdef012345678".

Definition twice60 : gmap string jsval :=
  {[ "coinTypes" := VArr ["60"; "60"] ]}.

Definition emailAnd60 : gmap string jsval :=
  {[ "texts" := VArr ["email"]; "coinTypes" := VArr ["60"] ]}.

(** Call descriptors whose [data] plays no part. *)
Definition emailCall : Call unit := mkCall "email" () KText.
Definition coinCall (coinType : string) : Call unit := mkCall coinType () KAddr.

(** The literal of the specification's scenario: "0x" and 32 zero bytes. *)
Definition zeroHash : string :=
  "0x0000000000000000000000000000000000000000000000000000000000000000".

Definition literalHash (h : string) : gmap string jsval :=
  {[ "coinTypes" := VArr ["60"]; "contentHash" := VStr h ]}.

(** The record the formatter makes of [addrA] under coin type 60. *)
Definition recordA : DataItem :=
  mkDataItem "60" KAddr (Some "ETH") hexA.

(** What the index holds for a name: no text key, coin type 60 and the
    content hash [h]. *)
Definition indexed (h : string) : gmap string jsval :=
  {[ "texts" := VArr []; "coinTypes" := VArr ["60"]; "contentHash" := VStr h ]}.

(** The environment of most examples: the resolver answers [answers], the
    name is alice.eth, the index holds [indexed h]. *)
Definition aliceENS (answers : list (list byte)) (h : string) : InternalENS :=
  demoENS answers "alice.eth" [mkDomain (Some (indexed h))]
    (mkNameResult "alice.eth" true).

(** The same without any domain in the index. *)
Definition unindexedENS (answers : list (list byte)) : InternalENS :=
  demoENS answers "alice.eth" [] (mkNameResult "alice.eth" true).

(** The index knows the name but its domain has no resolver. *)
Definition noResolverENS (answers : list (list byte)) : InternalENS :=
  demoENS answers "alice.eth" [mkDomain None] (mkNameResult "alice.eth" true).

(** An environment in which no name is bound to the address looked up:
    the lookup does not match and the reverse registry names nothing. *)
Definition unboundENS (answers : list (list byte)) : InternalENS :=
  demoENS answers "" [] (mkNameResult "" false).

End Demo.

(** ** Vocabulary of the statements below *)

(** The two hex characters of a byte. *)
Definition hi (b : byte) : ascii :=
  Hex.hexChar (N.shiftr (N.land (Byte.to_N b) 240) 4).
Definition lo (b : byte) : ascii := Hex.hexChar (N.land (Byte.to_N b) 15).

(** A slot is unset: an empty decoded text, or decoded bytes all zero. *)
Definition unset (L : Codecs) {D} (c : Call D) (item : string) : Prop :=
  match c_type c with
  | KText => decodeString L item = Ok ""
  | KAddr | KContenthash =>
      ∃ bs, decodeBytes L item = Ok bs ∧ Hex.allZero bs = true
  end.

(** What a call descriptor is for: its key and its kind. *)
Definition descr {D} (c : Call D) : string * kind := (c_key c, c_type c).

(** The descriptors a field of the options asks for, and those the whole
    options object asks for, in the order the builders add them. *)
Definition requestedOf (k : kind) (field : jsval) : list (string * kind) :=
  match field with
  | VArr l => (λ item, (item, k)) <$> l
  | _ => []
  end.

Definition requested (options : gmap string jsval) : list (string * kind) :=
  requestedOf KText (prop options "texts")
    ++ requestedOf KAddr (prop options "coinTypes")
    ++ (if bool_decide (prop options "contentHash" = VBool true)
        then [("contentHash", KContenthash)] else []).

(** What the specification says the index shortcut does to the options:
    every field that is the boolean [true] becomes the index's value for
    it, the others stay. *)
Definition concretized (resolverResponse wantedRecords : gmap string jsval)
    : gmap string jsval :=
  map_imap (λ key v, Some (if bool_decide (v = VBool true)
                           then prop resolverResponse key else v))
    wantedRecords.

(** The forward batch was built, sent and decoded: [calls] is the call
    list, [encodedName] and [data] what [resolve] was called with, and
    [recordData] the decoded answer. *)
Definition resolved (L : Codecs) (ENS : InternalENS) (name : string)
    (options : gmap string jsval) (calls : list (Call string))
    (encodedName data : string) (recordData : list string) : Prop :=
  ∃ c pr ur resolver,
    contracts ENS = Some c ∧ getPublicResolver c = Ok pr ∧
    getUniversalResolver c = Ok ur ∧
    forwardCalls L (Some pr) name options = Ok calls ∧
    encodeFunctionData pr "multicall(bytes[])"
      [ABytesArray (c_data <$> calls)] = Ok data ∧
    hexEncodeName L name = Ok encodedName ∧
    resolve ur encodedName data = Ok resolver ∧
    decodeBytesArray L resolver = Ok recordData.

(** The reverse batch was built and sent: [calls] is the call list,
    [encodedNode] what [reverse] was called with, [name] and [data] its
    answer. *)
Definition reversed (L : Codecs) (ENS : InternalENS) (address : string)
    (options : gmap string jsval) (calls : list (Call ResolverData))
    (encodedNode name : string) (data : list string) : Prop :=
  ∃ c ur,
    contracts ENS = Some c ∧ getUniversalResolver c = Ok ur ∧
    reverseCalls L options = Ok calls ∧
    hexEncodeName L (reverseNode address) = Ok encodedNode ∧
    reverse ur encodedNode (c_data <$> calls) = Ok (name, data).

(** What a forward and a reverse resolution await, in this order, when
    nothing throws on the way. *)
Definition forwardAwaits (encodedName data : string) : list event :=
  [EvGetPublicResolver; EvGetUniversalResolver; EvResolve encodedName data].

Definition reverseAwaits (encodedNode : string) (calls : list ResolverData)
    : list event :=
  [EvGetUniversalResolver; EvReverse encodedNode calls].

(** The argument types the forward builder appends to a record type. *)
Definition functionArgsOf (k : kind) : string :=
  match k with
  | KText => "(bytes32,string)"
  | KAddr => "(bytes32,uint256)"
  | KContenthash => "(bytes32)"
  end.

(** What a record is of: its key and its kind. *)
Definition recordOf (x : DataItem) : string * kind := (key x, type x).

(** The options of the running examples. *)
Definition onlyEmail : gmap string jsval := {[ "texts" := VArr ["email"] ]}.

(** * Properties *)

(** ** Hex strings *)

Module HexFacts.
Import Str Hex.

Lemma hexDigits_cons b bs :
  hexDigits (b :: bs) = String (hi b) (String (lo b) (hexDigits bs)).
Proof. reflexivity. Qed.

Lemma digits_are_hex b : isHexDigit (hi b) = true ∧ isHexDigit (lo b) = true.
Proof. destruct b; split; vm_compute; reflexivity. Qed.

Lemma digits_are_lower b : lowerChar (hi b) = hi b ∧ lowerChar (lo b) = lo b.
Proof. destruct b; split; vm_compute; reflexivity. Qed.

Lemma bufferFromHex_pair b s :
  bufferFromHex (String (hi b) (String (lo b) s)) = b :: bufferFromHex s.
Proof. destruct b; reflexivity. Qed.

Lemma skipZeros_pair b s :
  skipZeros (String (hi b) (String (lo b) s)) =
    if Byte.eqb b x00 then skipZeros s else
      skipZeros (String (hi b) (String (lo b) "")) +:+ s.
Proof. destruct b; reflexivity. Qed.

Lemma skipZeros_pair_nonempty b :
  Byte.eqb b x00 = false → skipZeros (String (hi b) (String (lo b) "")) ≠ "".
Proof. destruct b; vm_compute; congruence. Qed.

Lemma allHexDigits_hexDigits bs : allHexDigits (hexDigits bs) = true.
Proof.
  induction bs as [|b bs IH]; [reflexivity|].
  rewrite hexDigits_cons. cbn [allHexDigits].
  destruct (digits_are_hex b) as [-> ->]. exact IH.
Qed.

Lemma isHexString_hexlify bs : isHexString (hexlify bs) = true.
Proof. apply allHexDigits_hexDigits. Qed.

Lemma toLowerCase_hexDigits bs : toLowerCase (hexDigits bs) = hexDigits bs.
Proof.
  induction bs as [|b bs IH]; [reflexivity|].
  rewrite hexDigits_cons. cbn [toLowerCase].
  destruct (digits_are_lower b) as [-> ->]. by rewrite IH.
Qed.

(** A hexlified byte array has no upper-case letter. *)
Lemma toLowerCase_hexlify bs : toLowerCase (hexlify bs) = hexlify bs.
Proof.
  unfold hexlify. change ("0x" +:+ hexDigits bs)
    with (String "0" (String "x" (hexDigits bs))).
  cbn [toLowerCase]. by rewrite toLowerCase_hexDigits.
Qed.

(** [Buffer.from(hex.slice(2), 'hex')] gives back the bytes hexlified. *)
Lemma bufferFromHex_hexlify bs :
  bufferFromHex (substringFrom 2 (hexlify bs)) = bs.
Proof.
  change (substringFrom 2 (hexlify bs)) with (hexDigits bs).
  induction bs as [|b bs IH]; [reflexivity|].
  by rewrite hexDigits_cons, bufferFromHex_pair, IH.
Qed.

Lemma append_empty (s t : string) : s +:+ t = "" → s = "".
Proof. destruct s; [done|discriminate]. Qed.

Lemma skipZeros_hexDigits bs :
  skipZeros (hexDigits bs) = "" ↔ allZero bs = true.
Proof.
  induction bs as [|b bs IH]; [done|].
  rewrite hexDigits_cons, skipZeros_pair. cbn [allZero forallb].
  destruct (Byte.eqb b x00) eqn:Hb; cbn [andb]; [exact IH|].
  split; [|discriminate].
  intros H%append_empty. by apply skipZeros_pair_nonempty in H.
Qed.

Lemma skipZeros_char c s :
  skipZeros (String c s) =
    if bool_decide (c = "0"%char) then skipZeros s else String c s.
Proof.
  destruct c as [[] [] [] [] [] [] [] []]; reflexivity.
Qed.

Lemma skipZeros_digits s : skipZeros s = "" ↔ allZeroDigits s = true.
Proof.
  induction s as [|c s IH]; [done|].
  rewrite skipZeros_char. cbn [allZeroDigits].
  destruct (bool_decide (c = "0"%char)); cbn [andb]; [exact IH|done].
Qed.

Lemma prefixed_empty s : "0x" +:+ s = "0x" ↔ s = "".
Proof.
  change ("0x" +:+ s) with (String "0" (String "x" s)).
  split; [by intros [= ->]|by intros ->].
Qed.

(** [hexStripZeros] of a hex string is ["0x"] exactly when every digit
    is zero. *)
Lemma hexStripZeros_hex s :
  isHexString s = true →
  ∃ t, hexStripZeros s = Ok t ∧
       bool_decide (t = "0x") = allZeroDigits (substringFrom 2 s).
Proof.
  intros Hs. unfold hexStripZeros. rewrite Hs. eexists; split; [done|].
  destruct (allZeroDigits _) eqn:Hz.
  - apply bool_decide_eq_true, prefixed_empty, skipZeros_digits, Hz.
  - apply bool_decide_eq_false. rewrite prefixed_empty, skipZeros_digits.
    congruence.
Qed.

(** On a decoded byte array it never throws, and is ["0x"] exactly when
    all bytes are zero. *)
Lemma hexStripZeros_hexlify bs :
  ∃ t, hexStripZeros (hexlify bs) = Ok t ∧
       bool_decide (t = "0x") = allZero bs.
Proof.
  unfold hexStripZeros. rewrite isHexString_hexlify.
  eexists; split; [done|].
  change (substringFrom 2 (hexlify bs)) with (hexDigits bs).
  destruct (allZero bs) eqn:Hz.
  - apply bool_decide_eq_true, prefixed_empty, skipZeros_hexDigits, Hz.
  - apply bool_decide_eq_false. rewrite prefixed_empty, skipZeros_hexDigits.
    congruence.
Qed.

End HexFacts.


(** ** The record formatter *)

Section FormatterFacts.
Context (L : Codecs) {D : Type}.
Implicit Type c : Call D.
Implicit Type calls cs : list (Call D).
Implicit Type item : string.
Implicit Type data rest ds : list string.
Implicit Type x : DataItem.

Lemma rbind_ok {A B} (r : result A) (f : A → result B) b :
  rbind r f = Ok b ↔ ∃ a, r = Ok a ∧ f a = Ok b.
Proof.
  destruct r as [a|e]; cbn; [|split; [done|by intros (? & ? & ?)]].
  split; [eauto|by intros (? & [= ->] & ?)].
Qed.

Lemma rmap_ok {A B} (f : A → B) (r : result A) b :
  rmap f r = Ok b ↔ ∃ a, r = Ok a ∧ b = f a.
Proof.
  destruct r as [a|e]; cbn; [|split; [done|by intros (? & ? & ?)]].
  split; [intros [= <-]; eauto|by intros (? & [= ->] & ->)].
Qed.

(** Lines 186-191 in terms of the decoded bytes. *)
Lemma decodeUnlessZero_spec item :
  decodeUnlessZero L item =
    (bs <- decodeBytes L item;;
     Ok (if Hex.allZero bs then None else Some (Hex.hexlify bs))).
Proof.
  unfold decodeUnlessZero. destruct (decodeBytes L item) as [bs|e]; [|done].
  cbn. destruct (HexFacts.hexStripZeros_hexlify bs) as (t & -> & Ht).
  cbn. by rewrite Ht.
Qed.

Lemma formatItem_text c item :
  c_type c = KText →
  formatItem L c item =
    (v <- decodeString L item;;
     Ok (if bool_decide (v = "") then None
         else Some (mkDataItem (c_key c) KText None v))).
Proof. unfold formatItem. by intros ->. Qed.

Lemma formatItem_addr c item :
  c_type c = KAddr →
  formatItem L c item =
    (bs <- decodeBytes L item;;
     if Hex.allZero bs then Ok None else
       match formatsByCoinType L !! c_key c with
       | Some format =>
           v <- fmt_encoder format bs;;
           Ok (Some (mkDataItem (c_key c) KAddr (Some (fmt_name format)) v))
       | None => Ok None
       end).
Proof.
  unfold formatItem. intros ->. rewrite decodeUnlessZero_spec.
  destruct (decodeBytes L item) as [bs|e]; [|done]. unfold rbind.
  destruct (Hex.allZero bs); [done|].
  by rewrite HexFacts.bufferFromHex_hexlify.
Qed.

Lemma formatItem_contenthash c item :
  c_type c = KContenthash →
  formatItem L c item =
    (bs <- decodeBytes L item;;
     Ok (if Hex.allZero bs then None
         else Some (mkDataItem (c_key c) KContenthash None (Hex.hexlify bs)))).
Proof.
  unfold formatItem. intros ->. rewrite decodeUnlessZero_spec.
  destruct (decodeBytes L item) as [bs|e]; [|done]. cbn.
  by destruct (Hex.allZero bs).
Qed.

Lemma formatItem_unset c item : unset L c item → formatItem L c item = Ok None.
Proof.
  unfold unset. destruct (c_type c) eqn:Hk.
  - intros Hv. by rewrite formatItem_text, Hv.
  - intros (bs & Hbs & Hz). by rewrite formatItem_addr, Hbs; cbn; rewrite ?Hz.
  - intros (bs & Hbs & Hz).
    by rewrite formatItem_contenthash, Hbs; cbn; rewrite ?Hz.
Qed.

(** What a kept record says about the slot it was made from. *)
Lemma formatItem_kept c item x :
  formatItem L c item = Ok (Some x) →
  key x = c_key c ∧ type x = c_type c ∧ ¬ unset L c item ∧
  match c_type c with
  | KText => coin x = None ∧ value x ≠ "" ∧ decodeString L item = Ok (value x)
  | KAddr =>
      ∃ bs format, decodeBytes L item = Ok bs ∧ Hex.allZero bs = false ∧
        formatsByCoinType L !! c_key c = Some format ∧
        coin x = Some (fmt_name format) ∧ fmt_encoder format bs = Ok (value x)
  | KContenthash =>
      ∃ bs, decodeBytes L item = Ok bs ∧ Hex.allZero bs = false ∧
        coin x = None ∧ value x = Hex.hexlify bs
  end.
Proof.
  unfold unset. destruct (c_type c) eqn:Hk.
  - rewrite formatItem_text by done. intros (v & Hv & Hx)%rbind_ok.
    case_bool_decide as Hne; [done|]. injection Hx as <-. cbn.
    repeat split; try done. rewrite Hv. by intros [= ->].
  - rewrite formatItem_addr by done. intros (bs & Hbs & Hx)%rbind_ok.
    destruct (Hex.allZero bs) eqn:Hz; [done|].
    destruct (formatsByCoinType L !! c_key c) as [format|] eqn:Hf; [|done].
    apply rbind_ok in Hx as (v & Hv & [= <-]). cbn.
    repeat split; try done.
    + intros (bs' & Hbs' & Hz'). congruence.
    + by exists bs, format.
  - rewrite formatItem_contenthash by done. intros (bs & Hbs & Hx)%rbind_ok.
    destruct (Hex.allZero bs) eqn:Hz; [done|]. injection Hx as <-. cbn.
    repeat split; try done.
    + intros (bs' & Hbs' & Hz'). congruence.
    + by exists bs.
Qed.

Lemma mapItems_drop i data calls :
  mapItems L i data calls = mapItems L 0 data (drop i calls).
Proof.
  revert i calls. induction data as [|item rest IH]; intros i calls; [done|].
  cbn [mapItems]. rewrite lookup_drop, Nat.add_0_r.
  rewrite (IH (S i)), (IH 1), drop_drop. by rewrite Nat.add_1_r.
Qed.

(** The map walks the two lists side by side. *)
Lemma mapItems_cons item rest c cs :
  mapItems L 0 (item :: rest) (c :: cs) =
    (r <- formatItem L c item;;
     rs <- mapItems L 0 rest cs;;
     Ok (r :: rs)).
Proof. cbn [mapItems]. by rewrite (mapItems_drop 1). Qed.

Lemma mapItems_source data calls rs :
  mapItems L 0 data calls = Ok rs →
  length rs = length data ∧
  ∀ i r, rs !! i = Some r →
    ∃ c item, calls !! i = Some c ∧ data !! i = Some item ∧
              formatItem L c item = Ok r.
Proof.
  revert calls rs. induction data as [|item rest IH]; intros calls rs.
  - intros [= <-]. split; [done|]. by intros i r.
  - destruct calls as [|c cs]; [done|]. rewrite mapItems_cons.
    intros (r & Hr & (rs' & Hrs & [= <-])%rbind_ok)%rbind_ok.
    destruct (IH _ _ Hrs) as [Hlen Hsrc]. split; [by cbn; rewrite Hlen|].
    intros [|i] r'; cbn.
    + intros [= <-]. by exists c, item.
    + apply Hsrc.
Qed.

(** Every returned record is what the map made of one of the slots. *)
Lemma returnedRecords_source data calls rs x :
  returnedRecords L data calls = Ok rs → x ∈ rs →
  ∃ i c item, calls !! i = Some c ∧ data !! i = Some item ∧
              formatItem L c item = Ok (Some x).
Proof.
  unfold returnedRecords. intros (os & Hos & ->)%rmap_ok.
  intros (o & Ho & Hx)%list_elem_of_omap. cbn in Hx. subst o.
  apply list_elem_of_lookup in Ho as [i Hi].
  destruct (mapItems_source _ _ _ Hos) as [_ Hsrc].
  destruct (Hsrc _ _ Hi) as (c & item & ? & ? & ?). by exists i, c, item.
Qed.

Lemma mapItems_app ds1 ds2 cs1 cs2 :
  length ds1 = length cs1 →
  mapItems L 0 (ds1 ++ ds2) (cs1 ++ cs2) =
    (rs1 <- mapItems L 0 ds1 cs1;;
     rs2 <- mapItems L 0 ds2 cs2;;
     Ok (rs1 ++ rs2)).
Proof.
  revert cs1. induction ds1 as [|item ds1 IH]; intros [|c cs1] Hlen; try done.
  - cbn [app mapItems rbind]. by destruct (mapItems L 0 ds2 cs2).
  - cbn [app]. rewrite !mapItems_cons, IH by (by injection Hlen).
    destruct (formatItem L c item); [|done]. cbn [rbind].
    destruct (mapItems L 0 ds1 cs1); [|done]. cbn [rbind].
    by destruct (mapItems L 0 ds2 cs2).
Qed.

(** A slot whose item the map turns into [null] leaves no trace: the
    records are those of the batch without that call and its answer. *)
Lemma returnedRecords_null_slot ds1 ds2 cs1 cs2 c item :
  length ds1 = length cs1 → formatItem L c item = Ok None →
  returnedRecords L (ds1 ++ item :: ds2) (cs1 ++ c :: cs2) =
    returnedRecords L (ds1 ++ ds2) (cs1 ++ cs2).
Proof.
  intros Hlen Hnull. unfold returnedRecords.
  rewrite !mapItems_app, mapItems_cons, Hnull by done.
  destruct (mapItems L 0 ds1 cs1) as [rs1|]; [|done]. cbn [rbind].
  destruct (mapItems L 0 ds2 cs2) as [rs2|]; [|done]. cbn [rbind rmap].
  by rewrite !omap_app.
Qed.

Lemma formatRecords_null_slot ds1 ds2 cs1 cs2 c item options :
  length ds1 = length cs1 → formatItem L c item = Ok None →
  formatRecords L (ds1 ++ item :: ds2) (cs1 ++ c :: cs2) options =
    formatRecords L (ds1 ++ ds2) (cs1 ++ cs2) options.
Proof.
  intros Hlen Hnull. unfold formatRecords.
  by rewrite returnedRecords_null_slot.
Qed.

Lemma returnedRecords_kept_slot ds1 ds2 cs1 cs2 c item x rs :
  length ds1 = length cs1 → formatItem L c item = Ok (Some x) →
  returnedRecords L (ds1 ++ item :: ds2) (cs1 ++ c :: cs2) = Ok rs → x ∈ rs.
Proof.
  intros Hlen Hx. unfold returnedRecords.
  rewrite mapItems_app, mapItems_cons, Hx by done.
  destruct (mapItems L 0 ds1 cs1) as [rs1|]; [|done]. cbn [rbind].
  destruct (mapItems L 0 ds2 cs2) as [rs2|]; [|done]. cbn [rbind rmap].
  intros [= <-]. rewrite omap_app. apply elem_of_app. right. cbn. left.
Qed.

Lemma formatRecords_ok data calls options recs :
  formatRecords L data calls options = Ok recs ↔
  ∃ rs, returnedRecords L data calls = Ok rs ∧
    contentHashBucket (prop options "contentHash") rs = Ok (contentHash recs) ∧
    texts recs = (if truthy (prop options "texts")
                  then Some (ofKind KText rs) else None) ∧
    coinTypes recs = (if truthy (prop options "coinTypes")
                      then Some (ofKind KAddr rs) else None).
Proof.
  unfold formatRecords. rewrite rbind_ok. split.
  - intros (rs & Hrs & (ch & Hch & [= <-])%rbind_ok). by exists rs.
  - intros (rs & Hrs & Hch & Ht & Hc). exists rs. split; [done|].
    rewrite Hch. cbn. destruct recs; cbn in *. by subst.
Qed.

Lemma elem_of_ofKind k (rs : list DataItem) x :
  x ∈ ofKind k rs ↔ type x = k ∧ x ∈ rs.
Proof. unfold ofKind. by rewrite list_elem_of_filter. Qed.

Lemma mapItems_short data calls :
  length calls < length data → is_ok (mapItems L 0 data calls) = false.
Proof.
  revert calls. induction data as [|item rest IH]; intros [|c cs] Hlen;
    cbn in Hlen; try lia; [done|].
  rewrite mapItems_cons. destruct (formatItem L c item); [|done]. cbn [rbind].
  specialize (IH cs ltac:(lia)). by destruct (mapItems L 0 rest cs).
Qed.

Lemma mapItems_take data calls :
  mapItems L 0 data calls = mapItems L 0 data (take (length data) calls).
Proof.
  revert calls. induction data as [|item rest IH]; intros [|c cs]; try done.
  cbn [length take]. by rewrite !mapItems_cons, <-IH.
Qed.

End FormatterFacts.


(** ** The call builders *)

Section BuilderFacts.
Context (L : Codecs).

Lemma requestedOf_falsy k field : truthy field = false → requestedOf k field = [].
Proof. by destruct field. Qed.

Lemma addCalls_descr pr calls recordArray k functionArgs name calls' :
  addCalls L pr calls recordArray k functionArgs name = Ok calls' →
  descr <$> calls' = (descr <$> calls) ++ ((λ item, (item, k)) <$> recordArray).
Proof.
  revert calls. induction recordArray as [|item rest IH]; intros calls.
  - intros [= <-]. by rewrite app_nil_r.
  - cbn [addCalls].
    intros (node & _ & (data & _ & Hrest)%rbind_ok)%rbind_ok.
    rewrite (IH _ Hrest), fmap_app, <-app_assoc. done.
Qed.

Lemma addCallsIf_descr pr calls field k functionArgs name calls' :
  addCallsIf L pr calls field k functionArgs name = Ok calls' →
  descr <$> calls' = (descr <$> calls) ++ requestedOf k field.
Proof.
  unfold addCallsIf. destruct (truthy field) eqn:Ht.
  - destruct field; try done. apply addCalls_descr.
  - intros [= <-]. by rewrite requestedOf_falsy, app_nil_r.
Qed.

Lemma addReverseCalls_descr keyArray calls k callArgs calls' :
  addReverseCalls L keyArray calls k callArgs = Ok calls' →
  descr <$> calls' = (descr <$> calls) ++ ((λ item, (item, k)) <$> keyArray).
Proof.
  revert calls. induction keyArray as [|item rest IH]; intros calls.
  - intros [= <-]. by rewrite app_nil_r.
  - cbn [addReverseCalls]. intros (data & _ & Hrest)%rbind_ok.
    rewrite (IH _ Hrest), fmap_app, <-app_assoc. done.
Qed.

Lemma addReverseCallsIf_descr field calls k callArgs calls' :
  addReverseCallsIf L field calls k callArgs = Ok calls' →
  descr <$> calls' = (descr <$> calls) ++ requestedOf k field.
Proof.
  unfold addReverseCallsIf. destruct (truthy field) eqn:Ht.
  - destruct field; try done. apply addReverseCalls_descr.
  - intros [= <-]. by rewrite requestedOf_falsy, app_nil_r.
Qed.

(** The built list holds the requested descriptors and nothing else: the
    guard [!calls.filter(...)] is never true, so no ["60"] call is added. *)
Lemma forwardCalls_descr pr name options calls :
  forwardCalls L pr name options = Ok calls →
  descr <$> calls = requested options.
Proof.
  unfold forwardCalls, requested.
  intros (cs1 & H1%addCallsIf_descr &
          (cs2 & H2%addCallsIf_descr & (cs3 & H3 & H4)%rbind_ok)%rbind_ok)%rbind_ok.
  cbn in H4. injection H4 as <-. cbn in H1. rewrite H1 in H2.
  destruct (prop options "contentHash") as [| |[]| |]; cbn in H3;
    try (apply rbind_ok in H3 as (data & _ & H3)); injection H3 as <-;
    rewrite ?fmap_app, H2, <-?app_assoc; case_bool_decide; try done;
    by rewrite ?app_nil_r.
Qed.

Lemma reverseCalls_descr options calls :
  reverseCalls L options = Ok calls → descr <$> calls = requested options.
Proof.
  unfold reverseCalls, requested.
  intros (cs1 & H1%addReverseCallsIf_descr &
          (cs2 & H2%addReverseCallsIf_descr &
           (cs3 & H3 & H4)%rbind_ok)%rbind_ok)%rbind_ok.
  cbn in H4. injection H4 as <-. cbn in H1. rewrite H1 in H2.
  destruct (prop options "contentHash") as [| |[]| |]; cbn in H3;
    try (apply rbind_ok in H3 as (data & _ & H3)); injection H3 as <-;
    rewrite ?fmap_app, H2, <-?app_assoc; case_bool_decide; try done;
    by rewrite ?app_nil_r.
Qed.

Lemma addReverseCalls_data keyArray calls k callArgs calls' :
  addReverseCalls L keyArray calls k callArgs = Ok calls' →
  ∃ new, calls' = calls ++ new ∧
    Forall (λ c, c_type c = k ∧
              makeResolverData L (kindName k +:+ callArgs)
                (Some (callDataType callArgs)) (Some (c_key c))
              = Ok (c_data c)) new.
Proof.
  revert calls. induction keyArray as [|item rest IH]; intros calls.
  - intros [= <-]. exists []. by rewrite app_nil_r.
  - cbn [addReverseCalls]. intros (data & Hdata & Hrest)%rbind_ok.
    destruct (IH _ Hrest) as (new & -> & Hnew).
    exists (mkCall item data k :: new). split; [by rewrite <-app_assoc|].
    by constructor.
Qed.

Lemma addReverseCallsIf_data field calls k callArgs calls' :
  addReverseCallsIf L field calls k callArgs = Ok calls' →
  ∃ new, calls' = calls ++ new ∧
    Forall (λ c, c_type c = k ∧
              makeResolverData L (kindName k +:+ callArgs)
                (Some (callDataType callArgs)) (Some (c_key c))
              = Ok (c_data c)) new.
Proof.
  unfold addReverseCallsIf. destruct (truthy field).
  - destruct field; try done. apply addReverseCalls_data.
  - intros [= <-]. exists []. by rewrite app_nil_r.
Qed.

Lemma makeResolverData_key k key data :
  k ≠ KContenthash →
  makeResolverData L (kindName k +:+ functionArgsOf k)
    (Some (callDataType (functionArgsOf k))) (Some key) = Ok data →
  sig data = kindName k +:+ functionArgsOf k ∧
  if bool_decide (key = "") then rd_data data = []
  else ∃ enc, abiEncode L "(bytes32" key = Ok enc ∧
              rd_data data = [mkResolverArg "(bytes32" enc].
Proof.
  intros Hk. unfold makeResolverData.
  assert (callDataType (functionArgsOf k) = "(bytes32") as ->
    by (by destruct k).
  rewrite bool_decide_eq_true_2 by done. cbn [andb].
  destruct (decide (key = "")) as [->|Hne].
  - rewrite bool_decide_eq_false_2 by (by intros ?).
    rewrite bool_decide_eq_true_2 by done. by intros [= <-].
  - rewrite bool_decide_eq_true_2 by done.
    rewrite bool_decide_eq_false_2 by done.
    intros (enc & Henc & [= <-])%rbind_ok. cbn. split; [done|]. by exists enc.
Qed.

(** In a reverse call list that was built, every text or addr call with a
    key that is not the empty string had that key encoded under the type
    string ["(bytes32"], and a contenthash call has the key "contentHash". *)
Lemma reverseCalls_encoded options calls :
  reverseCalls L options = Ok calls →
  Forall (λ c,
    match c_type c with
    | KContenthash => c_key c = "contentHash"
    | _ => c_key c = "" ∨ is_ok (abiEncode L "(bytes32" (c_key c)) = true
    end) calls.
Proof.
  unfold reverseCalls.
  intros (cs1 & H1%addReverseCallsIf_data &
          (cs2 & H2%addReverseCallsIf_data &
           (cs3 & H3 & H4)%rbind_ok)%rbind_ok)%rbind_ok.
  cbn in H4. injection H4 as <-.
  destruct H1 as (new1 & -> & Hnew1), H2 as (new2 & -> & Hnew2).
  assert (∀ k new, k ≠ KContenthash →
    Forall (λ c : Call ResolverData, c_type c = k ∧
              makeResolverData L (kindName k +:+ functionArgsOf k)
                (Some (callDataType (functionArgsOf k))) (Some (c_key c))
              = Ok (c_data c)) new →
    Forall (λ c : Call ResolverData,
      match c_type c with
      | KContenthash => c_key c = "contentHash"
      | _ => c_key c = "" ∨ is_ok (abiEncode L "(bytes32" (c_key c)) = true
      end) new) as Hkind.
  { intros k new Hk Hnew. eapply Forall_impl; [exact Hnew|].
    intros c [Hty Hc]. apply (makeResolverData_key k) in Hc as [_ Hc]; [|done].
    rewrite Hty. destruct (decide (c_key c = "")) as [He|He].
    - by destruct k; [left|left|].
    - rewrite bool_decide_eq_false_2 in Hc by done.
      destruct Hc as (enc & -> & _). by destruct k; [right|right|]. }
  assert (Forall (λ c : Call ResolverData,
      match c_type c with
      | KContenthash => c_key c = "contentHash"
      | _ => c_key c = "" ∨ is_ok (abiEncode L "(bytes32" (c_key c)) = true
      end) (([] ++ new1) ++ new2)) as Hboth.
  { apply Forall_app. split; [by apply (Hkind KText)|by apply (Hkind KAddr)]. }
  destruct (prop options "contentHash") as [| |[]| |]; cbn in H3;
    try (injection H3 as <-; exact Hboth).
  injection H3 as <-. apply Forall_app. split; [done|]. by repeat constructor.
Qed.

Lemma findIndex60_descr {D} (calls : list (Call D)) :
  findIndex60 calls = fst <$> list_find (λ d, d.1 = "60") (descr <$> calls).
Proof.
  unfold findIndex60. induction calls as [|c cs IH]; [done|].
  rewrite fmap_cons. cbn [list_find]. unfold descr at 1. cbn [fst].
  destruct (decide (c_key c = "60")); [done|].
  rewrite <-!option_fmap_compose.
  destruct (list_find _ cs) as [[i x]|];
    destruct (list_find _ (descr <$> cs)) as [[j y]|]; cbn in *; congruence.
Qed.

End BuilderFacts.

(** ** The effect monad *)

Lemma bind_ok {A B} (m : M A) (f : A → M B) w b w' :
  bind m f w = (Ok b, w') ↔ ∃ a w1, m w = (Ok a, w1) ∧ f a w1 = (Ok b, w').
Proof.
  unfold bind. destruct (m w) as [[a|e] w1].
  - split; [by exists a, w1|]. by intros (? & ? & [= -> ->] & ?).
  - split; [done|]. by intros (? & ? & ? & ?).
Qed.

Lemma lift_ok {A} (r : result A) w a w' :
  lift r w = (Ok a, w') ↔ r = Ok a ∧ w' = w.
Proof. unfold lift. split; [by intros [= -> ->]|by intros [-> ->]]. Qed.

Lemma await_ok {A} ev (r : result A) w a w' :
  await ev r w = (Ok a, w') ↔
  r = Ok a ∧ w' = mkWorld (heap w) (log w ++ [ev]).
Proof. unfold await. split; [by intros [= -> <-]|by intros [-> ->]]. Qed.

Lemma load_ok l w o w' :
  load l w = (Ok o, w') ↔ heap w !! l = Some o ∧ w' = w.
Proof.
  unfold load. destruct (heap w !! l); split;
    try (by intros [= -> ->]); try (by intros [[= ->] ->]); by intros [].
Qed.

Lemma getContract_ok {A} ENS ev (f : Contracts → result A) w x w' :
  getContract ENS ev f w = (Ok x, w') ↔
  match contracts ENS with
  | Some c => (∃ a, f c = Ok a ∧ x = Some a) ∧
              w' = mkWorld (heap w) (log w ++ [ev])
  | None => x = None ∧ w' = w
  end.
Proof.
  unfold getContract. destruct (contracts ENS) as [c|].
  - rewrite await_ok, rmap_ok. split.
    + intros [(a & Ha & ->) ->]. eauto.
    + intros [(a & Ha & ->) ->]. eauto.
  - unfold ret. split; [by intros [= <- <-]|by intros [-> ->]].
Qed.

(** The log after the awaits of one forward and one reverse resolution. *)
Lemma log_forward (lg : list event) ev :
  ((lg ++ [EvGetPublicResolver]) ++ [EvGetUniversalResolver]) ++ [ev] =
  lg ++ [EvGetPublicResolver; EvGetUniversalResolver; ev].
Proof. by rewrite <-!app_assoc. Qed.

Lemma log_reverse (lg : list event) ev :
  (lg ++ [EvGetUniversalResolver]) ++ [ev] =
  lg ++ [EvGetUniversalResolver; ev].
Proof. by rewrite <-!app_assoc. Qed.


(** ** The two resolvers *)

Section ResolverFacts.
Context (L : Codecs).

Lemma decodeSlot_ok data i address :
  decodeSlot L data i = Ok address ↔
  ∃ n item bs, i = Some n ∧ data !! n = Some item ∧
               decodeBytes L item = Ok bs ∧ address = Hex.hexlify bs.
Proof.
  unfold decodeSlot. split.
  - destruct i as [n|]; [|done]. cbn.
    destruct (data !! n) as [item|] eqn:Hn; [|done].
    intros (bs & ? & ?)%rmap_ok. by exists n, item, bs.
  - intros (n & item & bs & -> & Hn & Hbs & ->). cbn. by rewrite Hn, Hbs.
Qed.

(** Once the batch came back, [getDataForName] is the primary-address
    decode followed by the formatter; it awaited the two contract getters
    and one [resolve]. *)
Lemma getDataForName_resolved ENS name l w options calls encodedName data
    recordData :
  heap w !! l = Some options →
  resolved L ENS name options calls encodedName data recordData →
  getDataForName L ENS name l w =
    ((address <- decodeSlot L recordData (findIndex60 calls);;
      records <- formatRecords L recordData calls options;;
      Ok (mkProfileResult None (Some address) (Some (Some records)) None)),
     mkWorld (heap w)
       (log w ++ [EvGetPublicResolver; EvGetUniversalResolver;
                  EvResolve encodedName data])).
Proof.
  intros Hl (c & pr & ur & resolver & Hc & Hpr & Hur & Hcalls & Hdata & Hn
             & Hres & Hdec).
  unfold getDataForName, bind, getContract, lift, load, await, ret,
    encodeData, defined.
  rewrite Hc, Hpr, Hur. cbn [rmap rbind heap log]. rewrite Hl.
  unfold encodeData, defined in Hcalls. cbn [rbind] in Hcalls.
  rewrite Hcalls. cbn [rbind]. rewrite Hdata, Hn, Hres, Hdec. cbn [heap log].
  rewrite log_forward.
  destruct (decodeSlot L recordData (findIndex60 calls)); [|done].
  cbn [rbind]. by destruct (formatRecords L recordData calls options).
Qed.

(** Conversely a run that returns went through all of it. *)
Lemma getDataForName_ok ENS name l w r w' :
  getDataForName L ENS name l w = (Ok r, w') →
  ∃ options calls encodedName data recordData address records,
    heap w !! l = Some options ∧
    resolved L ENS name options calls encodedName data recordData ∧
    decodeSlot L recordData (findIndex60 calls) = Ok address ∧
    formatRecords L recordData calls options = Ok records ∧
    r = mkProfileResult None (Some address) (Some (Some records)) None ∧
    w' = mkWorld (heap w)
           (log w ++ [EvGetPublicResolver; EvGetUniversalResolver;
                      EvResolve encodedName data]).
Proof.
  unfold getDataForName.
  intros (pr & w1 & Hpr%getContract_ok & H)%bind_ok.
  apply bind_ok in H as (ur & w2 & Hur%getContract_ok & H).
  destruct (contracts ENS) as [c|] eqn:Hc; cycle 1.
  { destruct Hpr as [-> ->], Hur as [-> ->].
    apply bind_ok in H as (options & w1 & [Hl ->]%load_ok & H).
    apply bind_ok in H as (calls & w1 & [Hcalls ->]%lift_ok & H).
    by apply bind_ok in H as (data & w1 & [Hdata ->]%lift_ok & H). }
  destruct Hpr as [(pr' & Hpr & ->) ->], Hur as [(ur'' & Hur & ->) ->].
  apply bind_ok in H as (options & w1 & [Hl ->]%load_ok & H).
  apply bind_ok in H as (calls & w1 & [Hcalls ->]%lift_ok & H).
  apply bind_ok in H as (data & w1 & [Hdata ->]%lift_ok & H).
  apply bind_ok in H as (ur' & w1 & [Hur' ->]%lift_ok & H).
  apply bind_ok in H as (encodedName & w1 & [Hn ->]%lift_ok & H).
  apply bind_ok in H as (resolver & w1 & [Hres ->]%await_ok & H).
  apply bind_ok in H as (recordData & w1 & [Hdec ->]%lift_ok & H).
  apply bind_ok in H as (address & w1 & [Haddr ->]%lift_ok & H).
  apply bind_ok in H as (records & w1 & [Hrecs ->]%lift_ok & H).
  injection H as <- <-.
  injection Hur' as ->. cbn in Hdata, Hl |- *. rewrite log_forward.
  exists options, calls, encodedName, data, recordData, address, records.
  repeat split; try done. by exists c, pr', ur', resolver.
Qed.

(** The same two facts for the reverse path. *)
Lemma getDataForAddress_reversed ENS address l w options calls encodedNode
    name data :
  heap w !! l = Some options →
  reversed L ENS address options calls encodedNode name data →
  getDataForAddress L ENS address l w =
    ((primary <- decodeSlot L data (findIndex60 calls);;
      if bool_decide (primary ≠ Str.toLowerCase address) then
        Ok (mkProfileResult (Some (NameStr name)) None (Some None) (Some false))
      else
        records <- formatRecords L data calls options;;
        Ok (mkProfileResult (Some (NameStr name)) None (Some (Some records))
              (Some true))),
     mkWorld (heap w)
       (log w ++ [EvGetUniversalResolver;
                  EvReverse encodedNode (c_data <$> calls)])).
Proof.
  intros Hl (c & ur & Hc & Hur & Hcalls & Hn & Hrev).
  unfold getDataForAddress, bind, getContract, lift, load, await, ret, defined.
  rewrite Hc, Hur. cbn [rmap heap log]. rewrite Hl, Hcalls, Hn, Hrev.
  cbn [heap log fst snd]. rewrite log_reverse.
  destruct (decodeSlot L data (findIndex60 calls)) as [primary|]; [|done].
  cbn [rbind]. case_bool_decide; [done|].
  by destruct (formatRecords L data calls options).
Qed.

Lemma getDataForAddress_ok ENS address l w r w' :
  getDataForAddress L ENS address l w = (Ok r, w') →
  ∃ options calls encodedNode name data,
    heap w !! l = Some options ∧
    reversed L ENS address options calls encodedNode name data.
Proof.
  unfold getDataForAddress.
  intros (ur & w1 & Hur%getContract_ok & H)%bind_ok.
  apply bind_ok in H as (options & w2 & [Hl ->]%load_ok & H).
  apply bind_ok in H as (calls & w2 & [Hcalls ->]%lift_ok & H).
  apply bind_ok in H as (ur' & w2 & [Hur' ->]%lift_ok & H).
  apply bind_ok in H as (encodedNode & w2 & [Hn ->]%lift_ok & H).
  apply bind_ok in H as ([name data] & w2 & [Hrev ->]%await_ok & _).
  destruct (contracts ENS) as [c|] eqn:Hc; [|by destruct Hur as [-> _]].
  destruct Hur as [(ur'' & Hur & ->) ->]. injection Hur' as ->.
  cbn in Hl.
  exists options, calls, encodedNode, name, data. split; [done|].
  by exists c, ur'.
Qed.

(** Whatever the outcome, a resolver writes no object and awaits an
    initial part of its calls: it stops at the first throw. *)
Lemma getDataForName_effects ENS name l w r w' :
  getDataForName L ENS name l w = (r, w') →
  heap w' = heap w ∧
  ∃ tail encodedName data,
    log w' = log w ++ tail ∧ tail `prefix_of` forwardAwaits encodedName data.
Proof.
  unfold getDataForName, bind, getContract, lift, load, await, ret.
  intros H. repeat case_match; simplify_eq/=; (split; [done|]);
    rewrite <-?app_assoc; cbn [app];
    first [ by exists [], "", ""; rewrite app_nil_r; split;
                 [|apply prefix_nil]
          | eexists _, _, _; split; [reflexivity|];
              unfold forwardAwaits; reflexivity
          | eexists _, "", ""; split; [reflexivity|];
              unfold forwardAwaits; repeat apply prefix_cons; apply prefix_nil ].
Qed.

Lemma getDataForAddress_effects ENS address l w r w' :
  getDataForAddress L ENS address l w = (r, w') →
  heap w' = heap w ∧
  ∃ tail encodedNode calls,
    log w' = log w ++ tail ∧ tail `prefix_of` reverseAwaits encodedNode calls.
Proof.
  unfold getDataForAddress, bind, getContract, lift, load, await, ret.
  intros H. repeat case_match; simplify_eq/=; (split; [done|]);
    rewrite <-?app_assoc; cbn [app];
    first [ by exists [], "", []; rewrite app_nil_r; split;
                 [|apply prefix_nil]
          | eexists _, _, _; split; [reflexivity|];
              unfold reverseAwaits; reflexivity
          | eexists _, "", []; split; [reflexivity|];
              unfold reverseAwaits; repeat apply prefix_cons; apply prefix_nil ].
Qed.

End ResolverFacts.


(** ** The index shortcut *)

Section ShortcutFacts.

Lemma prop_true (o : gmap string jsval) key :
  prop o key = VBool true ↔ o !! key = Some (VBool true).
Proof. unfold prop. destruct (o !! key); cbn; naive_solver. Qed.

(** The [forEach] of [graphFetch] over distinct keys: the object at
    [wantedRecords] ends with every listed key that held [true] replaced. *)
Lemma concretize_run l resp keys w (o : gmap string jsval) :
  heap w !! l = Some o → NoDup keys →
  ∃ o', concretize l (Some resp) keys w
          = (Ok (), mkWorld (<[l := o']> (heap w)) (log w)) ∧
        ∀ k, o' !! k = if decide (k ∈ keys ∧ o !! k = Some (VBool true))
                       then Some (prop resp k) else o !! k.
Proof.
  revert w o. induction keys as [|key rest IH]; intros w o Hl Hnd.
  - exists o. split.
    + cbn. unfold ret. rewrite list_insert_id by done. by destruct w.
    + intros k. rewrite decide_False; [done|]. intros [H _]. inversion H.
  - apply NoDup_cons in Hnd as [Hkey Hnd]. cbn [concretize].
    unfold bind at 1. unfold load at 1. rewrite Hl.
    destruct (decide (prop o key = VBool true)) as [Ht|Ht].
    + rewrite Ht. unfold bind at 1. unfold bind at 1. unfold lift, defined, store.
      set (o1 := <[key := prop resp key]> o).
      set (w1 := mkWorld (<[l := o1]> (heap w)) (log w)).
      assert (heap w1 !! l = Some o1) as Hl1.
      { apply list_lookup_insert_eq. by eapply lookup_lt_Some. }
      destruct (IH w1 o1 Hl1 Hnd) as (o' & Hrun & Ho').
      exists o'. split.
      * rewrite Hrun. cbn. by rewrite list_insert_insert_eq.
      * intros k. rewrite Ho'. apply prop_true in Ht. unfold o1.
        destruct (decide (k = key)) as [->|Hne].
        -- rewrite lookup_insert_eq.
           rewrite decide_False by (by intros [? _]).
           rewrite decide_True; [done|]. split; [left|done].
        -- rewrite lookup_insert_ne by done.
           repeat case_decide; try done; exfalso;
             rewrite elem_of_cons in *; intuition congruence.
    + assert (bind (match prop o key with
                    | VBool true =>
                        bind (lift (defined (Some resp)))
                          (λ r, store l (<[key := prop r key]> o))
                    | _ => ret ()
                    end) (λ _, concretize l (Some resp) rest) w
              = concretize l (Some resp) rest w) as ->.
      { unfold bind, ret. by destruct (prop o key) as [| |[]| |]. }
      destruct (IH w o Hl Hnd) as (o' & Hrun & Ho').
      exists o'. split; [done|].
      intros k. rewrite Ho'. rewrite prop_true in Ht.
      repeat case_decide; try done; exfalso;
        rewrite elem_of_cons in *; intuition congruence.
Qed.

Lemma concretized_lookup resp (o : gmap string jsval) key :
  concretized resp o !! key =
    (λ v, if bool_decide (v = VBool true) then prop resp key else v) <$> o !! key.
Proof. unfold concretized. rewrite map_lookup_imap. by destruct (o !! key). Qed.

(** Field by field: a [true] becomes the index's value, the rest stays. *)
Lemma concretized_prop resp (o : gmap string jsval) key :
  prop (concretized resp o) key =
    if bool_decide (prop o key = VBool true) then prop resp key else prop o key.
Proof.
  unfold prop. rewrite concretized_lookup.
  destruct (o !! key) as [v|]; cbn; by repeat case_bool_decide.
Qed.

(** With a resolver in the first domain, [graphFetch] overwrites the
    object it was given and returns the same reference. *)
Lemma graphFetch_some ENS name l w (o : gmap string jsval) d ds resp :
  gqlRequest ENS name = Ok (d :: ds) → resolver d = Some resp →
  heap w !! l = Some o →
  graphFetch ENS name l w =
    (Ok l, mkWorld (<[l := concretized resp o]> (heap w))
             (log w ++ [EvGraph name])).
Proof.
  intros Hq Hr Hl. unfold graphFetch.
  unfold bind at 1. unfold await. rewrite Hq.
  unfold bind at 1. unfold lift. cbn [head defined rmap]. rewrite Hr.
  unfold bind at 1. unfold load at 1. cbn [heap]. rewrite Hl.
  set (w1 := mkWorld (heap w) (log w ++ [EvGraph name])).
  destruct (concretize_run l resp (map_to_list o).*1 w1 o Hl
              (NoDup_fst_map_to_list o)) as (o' & Hrun & Ho').
  unfold bind. rewrite Hrun. unfold ret. do 3 f_equal.
  apply map_eq. intros k. rewrite Ho', concretized_lookup.
  destruct (o !! k) as [v|] eqn:Hk; cbn.
  - case_decide as Hd.
    + destruct Hd as [_ [= ->]]. by rewrite bool_decide_eq_true_2.
    + rewrite bool_decide_eq_false_2; [done|]. intros ->. apply Hd.
      split; [|done]. apply list_elem_of_fmap. exists (k, VBool true).
      split; [done|]. by apply elem_of_map_to_list.
  - rewrite decide_False; [done|]. by intros [_ ?].
Qed.

(** Without any domain the destructuring throws. *)
Lemma graphFetch_empty ENS name l w :
  gqlRequest ENS name = Ok [] →
  graphFetch ENS name l w =
    (Throw TypeError, mkWorld (heap w) (log w ++ [EvGraph name])).
Proof. intros Hq. unfold graphFetch, bind, await. by rewrite Hq. Qed.

Lemma graphFetch_ok ENS name l w r w' :
  graphFetch ENS name l w = (Ok r, w') →
  ∃ d ds, gqlRequest ENS name = Ok (d :: ds).
Proof.
  unfold graphFetch.
  intros (response & w1 & [Hq ->]%await_ok & H)%bind_ok.
  apply bind_ok in H as (rr & w1 & [Hr ->]%lift_ok & _).
  destruct response as [|d ds]; [done|]. by exists d, ds.
Qed.

Lemma wantsAll_world options w : (wantsAll options w).2 = w.
Proof.
  unfold wantsAll. destruct options as [l|]; [|done].
  unfold bind, load, ret. by destruct (heap w !! l).
Qed.

Lemma wantsAll_run options w b :
  (wantsAll options w).1 = Ok b → wantsAll options w = (Ok b, w).
Proof.
  intros H. pose proof (wantsAll_world options w) as Hw.
  destruct (wantsAll options w) as [r w1]. cbn in *. by subst.
Qed.

End ShortcutFacts.


(** ** A literal content hash *)

Lemma formatRecords_literal (L : Codecs) {D} data (calls : list (Call D))
    options h recs :
  prop options "contentHash" = VStr h →
  formatRecords L data calls options = Ok recs →
  contentHash recs =
    Some (if Hex.allZeroDigits (Str.substringFrom 2 h) then None else Some h).
Proof.
  intros Hh (rs & _ & Hch & _)%formatRecords_ok.
  rewrite Hh in Hch. cbn in Hch.
  apply rbind_ok in Hch as (t & Ht & [= <-]).
  pose proof Ht as Hhex. unfold Hex.hexStripZeros in Hhex.
  destruct (Hex.isHexString h) eqn:Hs; [|done].
  destruct (HexFacts.hexStripZeros_hex h Hs) as (t' & Ht' & Hz).
  rewrite Ht in Ht'. injection Ht' as <-. by rewrite Hz.
Qed.

Lemma requested_literal_kinds options h :
  prop options "contentHash" = VStr h →
  Forall (λ d : string * kind, d.2 ≠ KContenthash) (requested options).
Proof.
  intros Hh. unfold requested. rewrite Hh.
  rewrite bool_decide_eq_false_2, app_nil_r by done.
  rewrite Forall_app. split.
  - destruct (prop options "texts"); cbn; try by constructor.
    rewrite Forall_fmap. by apply Forall_true.
  - destruct (prop options "coinTypes"); cbn; try by constructor.
    rewrite Forall_fmap. by apply Forall_true.
Qed.

Lemma no_contenthash_call {D} (calls : list (Call D)) options h :
  prop options "contentHash" = VStr h →
  descr <$> calls = requested options →
  Forall (λ c, c_type c ≠ KContenthash) calls.
Proof.
  intros Hh Hd. pose proof (requested_literal_kinds options h Hh) as Hk.
  rewrite <-Hd, Forall_fmap in Hk. done.
Qed.

(** The checking test double rejects what ethers' coder rejects. *)
Lemma checkedCodecs_checksTypes : checksTypes Demo.checkedCodecs.
Proof.
  intros type v Hopen. cbn. unfold Demo.checkedAbiEncode. by rewrite Hopen.
Qed.

(** * The properties of the specification *)

Section SpecProperties.
Import Demo.

(** C1 (the builders never add the guaranteed call).  For the request
    [{ texts: ["email"] }], which names no coin type, the specification asks for
    one appended ["60"] addr descriptor.  Both builders return the single
    text descriptor and no descriptor with key ["60"]: the guard
    [!calls.filter(...)] negates an array, which is always truthy.  The
    last two conjuncts run the builders in the test double, where they do
    return. *)
Theorem C1_primary_call_never_appended (L : Codecs) pr name :
  match forwardCalls L pr name onlyEmail with
  | Ok calls => descr <$> calls = [("email", KText)] ∧ findIndex60 calls = None
  | Throw _ => True
  end ∧
  match reverseCalls L onlyEmail with
  | Ok calls => descr <$> calls = [("email", KText)] ∧ findIndex60 calls = None
  | Throw _ => True
  end ∧
  is_ok (forwardCalls demoCodecs (Some demoPublicResolver) "alice.eth" onlyEmail)
    = true ∧
  is_ok (reverseCalls demoCodecs onlyEmail) = true.
Proof.
  split; [|split; [|by vm_compute]].
  - destruct (forwardCalls L pr name onlyEmail) as [calls|] eqn:E; [|done].
    apply forwardCalls_descr in E. split; [done|].
    by rewrite findIndex60_descr, E.
  - destruct (reverseCalls L onlyEmail) as [calls|] eqn:E; [|done].
    apply reverseCalls_descr in E. split; [done|].
    by rewrite findIndex60_descr, E.
Qed.

(** C3 (no primary address without an explicit ["60"]).  For the same
    request [getDataForName] never returns, in any environment: the call
    list has no descriptor with key ["60"], [findIndex] gives [-1] and the
    decode of [recordData[-1]] throws.  In the test double the batch is
    sent and answered (after the two contract getters the [resolve] is
    awaited) and the throw is the TypeError of that decode. *)
Theorem C3_forward_throws_without_60 (L : Codecs) (ENS : InternalENS) name :
  is_ok (getDataForName L ENS name 0 (start (Some onlyEmail))).1 = false ∧
  (getDataForName demoCodecs
     (aliceENS [answer (bytesOfString "a@b.c")] "0xe301")
     "alice.eth" 0 (start (Some onlyEmail))).1 = Throw TypeError ∧
  length (log (getDataForName demoCodecs
                 (aliceENS [answer (bytesOfString "a@b.c")] "0xe301")
                 "alice.eth" 0 (start (Some onlyEmail))).2) = 3.
Proof.
  split; [|by vm_compute].
  destruct (getDataForName L ENS name 0 (start (Some onlyEmail)))
    as [[r|e] w'] eqn:E; [|done]. exfalso.
  apply getDataForName_ok in E
    as (options & calls & en & data & rd & address & records & Hl & Hres
        & Hslot & _).
  injection Hl as <-.
  destruct Hres as (c & pr & ur & resolver & _ & _ & _ & Hcalls & _).
  apply forwardCalls_descr in Hcalls.
  apply decodeSlot_ok in Hslot as (n & item & bs & Hn & _).
  rewrite findIndex60_descr, Hcalls in Hn. done.
Qed.

(** C2 (the reverse resolution never gets as far as the match).  The
    reverse builder hands the coder the type string ["(bytes32"], what
    [callArgs.split(',')[0].replace(')', '')] leaves of either argument
    list, with every key that is not the empty string.  With a coder that
    rejects a type whose tuple does not close, as ethers' does,
    [getDataForAddress] returns for no request, whatever the environment:
    a request that names a text key or coin type other than the empty
    string throws in the builder, before [reverse] is awaited (at most the
    universal resolver's getter was), and a request whose call list is
    built has no descriptor with key ["60"], so the decode of [data[-1]]
    throws.  No [match] is ever returned. *)
Theorem C2_reverse_never_returns (L : Codecs) ENS address l w :
  checksTypes L →
  let run := getDataForAddress L ENS address l w in
  is_ok run.1 = false ∧
  (∀ options key k,
     heap w !! l = Some options →
     (key, k) ∈ requested options → k ≠ KContenthash → key ≠ "" →
     is_ok (reverseCalls L options) = false ∧
     ∃ tail, log run.2 = log w ++ tail ∧
             tail `prefix_of` [EvGetUniversalResolver]).
Proof.
  intros Hchk run.
  assert (∀ options calls c,
            reverseCalls L options = Ok calls → c ∈ calls →
            c_type c ≠ KContenthash ∨ c_key c ≠ "contentHash" →
            c_key c = "") as Hempty.
  { intros options calls c Hcalls Hc Hk.
    pose proof (reverseCalls_encoded L _ _ Hcalls) as Henc.
    rewrite Forall_forall in Henc. specialize (Henc c Hc).
    rewrite (Hchk "(bytes32" (c_key c) eq_refl) in Henc.
    destruct (c_type c); destruct Henc, Hk; done. }
  split.
  - unfold run. clear run.
    destruct (getDataForAddress L ENS address l w) as [[r|e] w'] eqn:E;
      [exfalso|done].
    destruct (getDataForAddress_ok L _ _ _ _ _ _ E)
      as (options & calls & node & name & data & Hl & Hrev).
    rewrite (getDataForAddress_reversed L _ _ _ _ _ _ _ _ _ Hl Hrev) in E.
    injection E as E _.
    apply rbind_ok in E as (primary & Hslot & _).
    apply decodeSlot_ok in Hslot as (n & item & bs & Hn & _).
    unfold findIndex60 in Hn.
    destruct (list_find (λ x : Call ResolverData, c_key x = "60") calls)
      as [[i c]|] eqn:Hfind; [|done].
    apply list_find_Some in Hfind as (Hi & Hkey & _).
    destruct Hrev as (cs & ur & _ & _ & Hcalls & _).
    assert (c_key c = "") as Hnone.
    { eapply Hempty; [exact Hcalls|by eapply list_elem_of_lookup_2|].
      right. by rewrite Hkey. }
    by rewrite Hkey in Hnone.
  - intros options key k Hl Hreq Hk Hkey.
    assert (is_ok (reverseCalls L options) = false) as Hthrow.
    { destruct (reverseCalls L options) as [calls|] eqn:Hcalls; [|done].
      exfalso. pose proof (reverseCalls_descr L _ _ Hcalls) as Hd.
      rewrite <-Hd in Hreq.
      apply list_elem_of_fmap in Hreq as (c & Hc & Hin).
      injection Hc as -> ->.
      apply Hkey. eapply Hempty; [exact Hcalls|done|by left]. }
    split; [done|]. unfold run.
    unfold getDataForAddress, bind, getContract, await, ret, lift, load.
    destruct (reverseCalls L options) as [|e] eqn:Hcalls; [done|].
    destruct (contracts ENS) as [c|]; cbn [heap log].
    + destruct (getUniversalResolver c); cbn [rmap]; cbn [heap log snd].
      * rewrite Hl, Hcalls. by exists [EvGetUniversalResolver].
      * by exists [EvGetUniversalResolver].
    + rewrite Hl, Hcalls. exists []. rewrite app_nil_r. split; [done|].
      apply prefix_nil.
Qed.

(** C2, at an input: the request for coin type 60 on an upper-case
    address, with the checking coder.  The builder throws on the type
    string after the universal resolver was fetched; [reverse] is not
    awaited. *)
Lemma C2_reverse_never_returns_witness :
  getDataForAddress checkedCodecs (aliceENS [answer addr1] "0xe301") upperAddr1
    0 (start (Some only60))
  = (Throw InvalidArgument, mkWorld [only60] [EvGetUniversalResolver]) ∧
  is_ok (getDataForAddress checkedCodecs (aliceENS [answer addr1] "0xe301")
           upperAddr1 0 (start (Some only60))).1 = false.
Proof.
  split; [vm_compute; reflexivity|].
  exact (proj1 (C2_reverse_never_returns checkedCodecs
                  (aliceENS [answer addr1] "0xe301") upperAddr1 0
                  (start (Some only60)) checkedCodecs_checksTypes)).
Defined.

(** C4.  An unset slot (a text decoding to the empty string, an addr or
    contenthash decoding to bytes that are all zero) is dropped: the
    formatter answers as for the batch without that call and its answer.
    And every record of the output comes from a slot that is set: a text
    record has a non-empty decoded value, an addr record decoded bytes
    that are not all zero, and a content hash is either the non-zero
    literal of the options or the hexlified non-zero bytes of a
    contenthash slot. *)
Theorem C4_unset_values_dropped (L : Codecs) {D : Type} :
  (∀ ds1 ds2 (cs1 cs2 : list (Call D)) c item options,
     length ds1 = length cs1 → unset L c item →
     formatItem L c item = Ok None ∧
     formatRecords L (ds1 ++ item :: ds2) (cs1 ++ c :: cs2) options =
       formatRecords L (ds1 ++ ds2) (cs1 ++ cs2) options) ∧
  (∀ data (calls : list (Call D)) options recs,
     formatRecords L data calls options = Ok recs →
     (∀ x, x ∈ default [] (texts recs) →
        type x = KText ∧ value x ≠ "" ∧
        ∃ i c item, calls !! i = Some c ∧ data !! i = Some item ∧
          descr c = (key x, KText) ∧ decodeString L item = Ok (value x)) ∧
     (∀ x, x ∈ default [] (coinTypes recs) →
        type x = KAddr ∧
        ∃ i c item bs, calls !! i = Some c ∧ data !! i = Some item ∧
          descr c = (key x, KAddr) ∧ decodeBytes L item = Ok bs ∧
          Hex.allZero bs = false) ∧
     (∀ h, contentHash recs = Some (Some h) →
        (prop options "contentHash" = VStr h ∧
         Hex.allZeroDigits (Str.substringFrom 2 h) = false) ∨
        ∃ i c item bs, calls !! i = Some c ∧ data !! i = Some item ∧
          c_type c = KContenthash ∧ decodeBytes L item = Ok bs ∧
          Hex.allZero bs = false ∧ h = Hex.hexlify bs)).
Proof.
  split.
  - intros ds1 ds2 cs1 cs2 c item options Hlen Hunset.
    pose proof (formatItem_unset L c item Hunset) as Hnull.
    split; [done|]. by apply formatRecords_null_slot.
  - intros data calls options recs
      (rs & Hrs & Hch & Ht & Hc)%formatRecords_ok.
    split; [|split].
    + intros x. rewrite Ht. destruct (truthy (prop options "texts")); cbn;
        [|by intros ?%elem_of_nil].
      intros [Hk Hx]%elem_of_ofKind.
      destruct (returnedRecords_source L _ _ _ _ Hrs Hx)
        as (i & c & item & Hi & Hd & Hfmt).
      apply formatItem_kept in Hfmt as (Hkey & Hty & _ & Hkind).
      rewrite <-Hty, Hk in Hkind. destruct Hkind as (_ & Hne & Hdec).
      repeat split; try done. exists i, c, item. unfold descr.
      by rewrite <-Hkey, <-Hty, Hk.
    + intros x. rewrite Hc. destruct (truthy (prop options "coinTypes")); cbn;
        [|by intros ?%elem_of_nil].
      intros [Hk Hx]%elem_of_ofKind.
      destruct (returnedRecords_source L _ _ _ _ Hrs Hx)
        as (i & c & item & Hi & Hd & Hfmt).
      apply formatItem_kept in Hfmt as (Hkey & Hty & _ & Hkind).
      rewrite <-Hty, Hk in Hkind.
      destruct Hkind as (bs & format & Hbs & Hz & _).
      split; [done|]. exists i, c, item, bs. unfold descr.
      by rewrite <-Hkey, <-Hty, Hk.
    + intros h Hh. rewrite Hh in Hch. unfold contentHashBucket in Hch.
      destruct (prop options "contentHash") as [| |b|s|l] eqn:Hopt;
        try done.
      * destruct b; [|done]. cbn in Hch. right.
        injection Hch as Hch.
        destruct (head (ofKind KContenthash rs)) as [x|] eqn:Hx; [|done].
        injection Hch as <-. apply head_Some_elem_of in Hx.
        apply elem_of_ofKind in Hx as [Hk Hx].
        destruct (returnedRecords_source L _ _ _ _ Hrs Hx)
          as (i & c & item & Hi & Hd & Hfmt).
        apply formatItem_kept in Hfmt as (Hkey & Hty & _ & Hkind).
        rewrite <-Hty, Hk in Hkind.
        destruct Hkind as (bs & Hbs & Hz & _ & Hv).
        exists i, c, item, bs. by rewrite <-Hty.
      * left. apply rbind_ok in Hch as (t & Ht' & Hch).
        pose proof Ht' as Hhex. unfold Hex.hexStripZeros in Hhex.
        destruct (Hex.isHexString s) eqn:Hs; [|done].
        destruct (HexFacts.hexStripZeros_hex s Hs) as (t' & Ht'' & Hz).
        rewrite Ht' in Ht''. injection Ht'' as <-.
        injection Hch as Hch. rewrite Hz in Hch.
        destruct (Hex.allZeroDigits (Str.substringFrom 2 s)) eqn:Hzs; [done|].
        injection Hch as <-. done.
      * cbn in Hch. injection Hch as Hch. right.
        destruct (head (ofKind KContenthash rs)) as [x|] eqn:Hx; [|done].
        injection Hch as <-. apply head_Some_elem_of in Hx.
        apply elem_of_ofKind in Hx as [Hk Hx].
        destruct (returnedRecords_source L _ _ _ _ Hrs Hx)
          as (i & c & item & Hi & Hd & Hfmt).
        apply formatItem_kept in Hfmt as (Hkey & Hty & _ & Hkind).
        rewrite <-Hty, Hk in Hkind.
        destruct Hkind as (bs & Hbs & Hz & _ & Hv).
        exists i, c, item, bs. by rewrite <-Hty.
Qed.

(** C4, at the specification's scenario: texts ["email"] and coin type
    "60" are requested, the resolver answers the empty string for the text
    and twenty non-zero bytes for the address; the text is dropped and the
    output is that of the address call alone. *)
Lemma C4_unset_values_dropped_witness :
  formatItem demoCodecs emailCall (Hex.hexlify (answer [])) = Ok None ∧
  formatRecords demoCodecs
    [Hex.hexlify (answer []); Hex.hexlify (answer addrA)]
    [emailCall; coinCall "60"] emailAnd60 =
  formatRecords demoCodecs [Hex.hexlify (answer addrA)] [coinCall "60"]
    emailAnd60.
Proof.
  refine (proj1 (C4_unset_values_dropped demoCodecs) [] [_] [] [_] emailCall
            (Hex.hexlify (answer [])) emailAnd60 _ _).
  - reflexivity.
  - vm_compute; reflexivity.
Defined.

(** C5.  An addr slot whose bytes are not all zero: without a codec
    registered for its coin type the item becomes [null], nothing throws,
    and the formatter answers as for the batch without that call; with a
    codec whose encoder accepts the bytes the record carries the codec's
    name as [coin] and the encoder's string as [value], and it is in the
    [coinTypes] bucket of the output when coin types were requested. *)
Theorem C5_unsupported_coin_dropped (L : Codecs) {D : Type} (c : Call D)
    item bs :
  c_type c = KAddr → decodeBytes L item = Ok bs → Hex.allZero bs = false →
  (formatsByCoinType L !! c_key c = None →
     formatItem L c item = Ok None ∧
     ∀ ds1 ds2 (cs1 cs2 : list (Call D)) options,
       length ds1 = length cs1 →
       formatRecords L (ds1 ++ item :: ds2) (cs1 ++ c :: cs2) options =
         formatRecords L (ds1 ++ ds2) (cs1 ++ cs2) options) ∧
  (∀ format v,
     formatsByCoinType L !! c_key c = Some format →
     fmt_encoder format bs = Ok v →
     let x := mkDataItem (c_key c) KAddr (Some (fmt_name format)) v in
     formatItem L c item = Ok (Some x) ∧
     ∀ ds1 ds2 (cs1 cs2 : list (Call D)) options recs,
       length ds1 = length cs1 →
       truthy (prop options "coinTypes") = true →
       formatRecords L (ds1 ++ item :: ds2) (cs1 ++ c :: cs2) options = Ok recs →
       x ∈ default [] (coinTypes recs)).
Proof.
  intros Hk Hbs Hz. split.
  - intros Hnone.
    assert (formatItem L c item = Ok None) as Hnull.
    { rewrite formatItem_addr, Hbs by done. cbn. by rewrite Hz, Hnone. }
    split; [done|]. intros. by apply formatRecords_null_slot.
  - intros format v Hfmt Hv x.
    assert (formatItem L c item = Ok (Some x)) as Hkept.
    { rewrite formatItem_addr, Hbs by done. cbn. by rewrite Hz, Hfmt, Hv. }
    split; [done|].
    intros ds1 ds2 cs1 cs2 options recs Hlen Hwant
      (rs & Hrs & _ & _ & Hc)%formatRecords_ok.
    rewrite Hc, Hwant. cbn. apply elem_of_ofKind. split; [done|].
    by eapply returnedRecords_kept_slot.
Qed.

(** C5, at an input: coin type "0" has no codec in the test double and its
    answer is dropped without a throw; coin type "60" has one and its
    record carries the name "ETH" and the formatted address; a lookup of
    both returns, with the one record. *)
Lemma C5_unsupported_coin_dropped_witness :
  formatItem demoCodecs (mkCall "0" () KAddr) (Hex.hexlify (answer addrA))
    = Ok None ∧
  formatItem demoCodecs (mkCall "60" () KAddr) (Hex.hexlify (answer addrA))
    = Ok (Some recordA) ∧
  (getProfile demoCodecs (aliceENS [answer addrA; answer addrB] "0xe301")
     "alice.eth" (Some 0) (start (Some coins60and0))).1
    = Ok (mkProfileResult None (Some hexA)
            (Some (Some (mkRecords None None (Some [recordA])))) None).
Proof.
  split; [|split; [|by vm_compute]].
  - refine (proj1 (proj1 (C5_unsupported_coin_dropped demoCodecs
      (mkCall "0" () KAddr) (Hex.hexlify (answer addrA)) addrA _ _ _) _)).
    + reflexivity.
    + vm_compute; reflexivity.
    + vm_compute; reflexivity.
    + vm_compute; reflexivity.
  - refine (proj1 (proj2 (C5_unsupported_coin_dropped demoCodecs
      (mkCall "60" () KAddr) (Hex.hexlify (answer addrA)) addrA _ _ _)
      ETH hexA _ _)).
    + reflexivity.
    + vm_compute; reflexivity.
    + vm_compute; reflexivity.
    + vm_compute; reflexivity.
    + vm_compute; reflexivity.
Defined.

(** C8 (amended).  [getDataForName] compares the number of decoded
    answers with the number of calls nowhere; the decode step hands over
    [recordData] whatever its length.  With no more answers than calls and
    the slot of the first call with key ["60"] among them and decoding, the
    answers are formatted against the leading calls alone and the lookup
    returns the address with that truncated record set exactly when the
    formatter returns on them.  With that slot beyond the answers the
    lookup throws a TypeError.  With more answers than calls it never
    returns: the formatter throws, a TypeError on [calls[i].key] of the
    first answer without a call when the answers before it format. *)
Theorem C8_no_count_check (L : Codecs) ENS name l w options calls encodedName
    data recordData :
  heap w !! l = Some options →
  resolved L ENS name options calls encodedName data recordData →
  let run := getDataForName L ENS name l w in
  let n := length recordData in
  (∀ i item bs,
     n ≤ length calls →
     findIndex60 calls = Some i → recordData !! i = Some item →
     decodeBytes L item = Ok bs →
     run.1 = rmap (λ records, mkProfileResult None (Some (Hex.hexlify bs))
                                (Some (Some records)) None)
               (formatRecords L recordData (take n calls) options)) ∧
  (∀ i, findIndex60 calls = Some i → n ≤ i → run.1 = Throw TypeError) ∧
  (length calls < n →
     is_ok run.1 = false ∧
     (∀ i item bs,
        findIndex60 calls = Some i → recordData !! i = Some item →
        decodeBytes L item = Ok bs →
        is_ok (returnedRecords L (take (length calls) recordData) calls)
          = true →
        run.1 = Throw TypeError)).
Proof.
  intros Hl Hres run n. unfold run.
  rewrite (getDataForName_resolved _ _ _ _ _ _ _ _ _ _ Hl Hres). cbn [fst].
  split; [|split].
  - intros i item bs Hlen Hi Hitem Hbs.
    assert (decodeSlot L recordData (findIndex60 calls)
            = Ok (Hex.hexlify bs)) as ->.
    { apply decodeSlot_ok. by exists i, item, bs. }
    cbn [rbind]. unfold formatRecords, returnedRecords.
    by rewrite <-mapItems_take.
  - intros i Hi Hlen. unfold decodeSlot. rewrite Hi. cbn.
    by rewrite lookup_ge_None_2.
  - intros Hlen. split.
    + destruct (decodeSlot L recordData (findIndex60 calls)); [|done].
      cbn [rbind]. unfold formatRecords, returnedRecords.
      pose proof (mapItems_short L recordData calls Hlen).
      by destruct (mapItems L 0 recordData calls).
    + intros i item bs Hi Hitem Hbs Hlead.
      assert (decodeSlot L recordData (findIndex60 calls)
              = Ok (Hex.hexlify bs)) as ->.
      { apply decodeSlot_ok. by exists i, item, bs. }
      cbn [rbind]. unfold formatRecords, returnedRecords in *.
      assert (mapItems L 0 recordData calls = Throw TypeError) as ->; [|done].
      pose proof (mapItems_app L (take (length calls) recordData)
                    (drop (length calls) recordData) calls []) as Happ.
      rewrite take_drop, app_nil_r in Happ.
      rewrite Happ by (rewrite length_take; lia).
      destruct (mapItems L 0 (take (length calls) recordData) calls);
        [|done].
      cbn [rbind].
      destruct (drop (length calls) recordData) as [|d rest] eqn:Hd; [|done].
      apply (f_equal length) in Hd. rewrite length_drop in Hd. cbn in Hd. lia.
Qed.

(** C8, at an input: two calls are built for the coin types "60" and "0",
    the resolver answers one item, and the lookup returns what the
    formatter makes of that item against the first call alone. *)
Lemma C8_no_count_check_witness :
  ∃ calls,
    forwardCalls demoCodecs (Some demoPublicResolver) "alice.eth" coins60and0
      = Ok calls ∧
    length calls = 2 ∧
    (getDataForName demoCodecs (aliceENS [answer addrA] "0xe301") "alice.eth" 0
       (start (Some coins60and0))).1
    = rmap (λ records, mkProfileResult None (Some (Hex.hexlify addrA))
                         (Some (Some records)) None)
        (formatRecords demoCodecs [Hex.hexlify (answer addrA)]
           (take 1 calls) coins60and0).
Proof.
  eexists. split; [vm_compute; reflexivity|]. split; [reflexivity|].
  refine (proj1 (C8_no_count_check demoCodecs
    (aliceENS [answer addrA] "0xe301") "alice.eth" 0
    (start (Some coins60and0)) coins60and0 _ _ _ [Hex.hexlify (answer addrA)]
    _ _) 0 _ addrA _ _ _ _).
  - reflexivity.
  - eexists _, _, _, _. repeat split; vm_compute; reflexivity.
  - cbn. lia.
  - reflexivity.
  - reflexivity.
  - vm_compute; reflexivity.
Defined.

(** C8 as stated fails: two calls are built for the coin types "60" and
    "0", the resolver's batch answer decodes to a single item, and
    [getDataForName] returns an address and a record set all the same. *)
Lemma C8_short_answer_accepted :
  ∃ calls recordData r,
    forwardCalls demoCodecs (Some demoPublicResolver) "alice.eth" coins60and0
      = Ok calls ∧
    length calls = 2 ∧
    decodeBytesArray demoCodecs (Hex.hexlify (encodeBytesArray [answer addrA]))
      = Ok recordData ∧
    length recordData = 1 ∧
    (getDataForName demoCodecs (aliceENS [answer addrA] "0xe301") "alice.eth" 0
       (start (Some coins60and0))).1 = Ok r ∧
    r = mkProfileResult None (Some hexA)
          (Some (Some (mkRecords None None (Some [recordA])))) None.
Proof.
  eexists _, _, _.
  split; [vm_compute; reflexivity|]. split; [reflexivity|].
  split; [vm_compute; reflexivity|]. split; [reflexivity|].
  split; [vm_compute; reflexivity|]. reflexivity.
Qed.

(** C7.  With a literal string as [contentHash]: neither builder makes a
    call of kind contenthash; whenever the formatter returns, the
    [contentHash] bucket is [null] if all digits of the literal are zero
    and the literal itself otherwise; and for a literal that is a hex
    string the formatter returns exactly when the items format (on any
    other string [hexStripZeros] throws). *)
Theorem C7_literal_content_hash (L : Codecs) options h :
  prop options "contentHash" = VStr h →
  (∀ pr name calls, forwardCalls L pr name options = Ok calls →
     Forall (λ c, c_type c ≠ KContenthash) calls) ∧
  (∀ calls, reverseCalls L options = Ok calls →
     Forall (λ c, c_type c ≠ KContenthash) calls) ∧
  (∀ D data (calls : list (Call D)) recs,
     formatRecords L data calls options = Ok recs →
     contentHash recs =
       Some (if Hex.allZeroDigits (Str.substringFrom 2 h) then None
             else Some h)) ∧
  (∀ D data (calls : list (Call D)),
     Hex.isHexString h = true →
     is_ok (formatRecords L data calls options) =
       is_ok (returnedRecords L data calls)).
Proof.
  intros Hh. split; [|split; [|split]].
  - intros pr name calls Hcalls%forwardCalls_descr.
    by eapply no_contenthash_call.
  - intros calls Hcalls%reverseCalls_descr. by eapply no_contenthash_call.
  - intros D data calls recs. by apply formatRecords_literal.
  - intros D data calls Hs. unfold formatRecords.
    destruct (returnedRecords L data calls) as [rs|]; [|done]. cbn [rbind].
    rewrite Hh. cbn.
    by destruct (HexFacts.hexStripZeros_hex h Hs) as (t & -> & _).
Qed.

(** C7, at the specification's scenario: the literal is "0x" followed by
    32 zero bytes; the forward builder makes the one addr call and no
    contenthash call, and the formatter's [contentHash] is [null]. *)
Lemma C7_literal_content_hash_witness :
  ∃ calls recs,
    forwardCalls demoCodecs (Some demoPublicResolver) "alice.eth"
      (literalHash zeroHash) = Ok calls ∧
    Forall (λ c, c_type c ≠ KContenthash) calls ∧
    formatRecords demoCodecs [Hex.hexlify (answer addrA)] calls
      (literalHash zeroHash) = Ok recs ∧
    contentHash recs = Some None.
Proof.
  pose proof (C7_literal_content_hash demoCodecs (literalHash zeroHash)
                zeroHash eq_refl) as (Hfwd & _ & Hfmt & _).
  eexists _, _. split; [vm_compute; reflexivity|].
  split; [apply (Hfwd (Some demoPublicResolver) "alice.eth"); reflexivity|].
  match goal with
  | |- ?run ∧ _ => assert run as Hrun by (vm_compute; reflexivity)
  end.
  split; [exact Hrun|]. exact (Hfmt _ _ _ _ Hrun).
Defined.

(** C6 (amended).  On the shortcut path of a name lookup, with a resolver
    in the first domain of the index answer: every field of the options
    object that is the boolean [true] is overwritten, in the object itself,
    with the index's value for it and the other fields stay; the forward
    resolver then runs on that object, after the single index query; no
    field is the literal [true] any more when the index holds none.  Text
    and address values are what the formatter makes of the on-chain
    answers, but a [contentHash] requested as [true] has become the
    index's string: no contenthash call is made and the bucket is that
    string ([null] when its digits are all zero). *)
Theorem C6_index_shortcut (L : Codecs) ENS name options w l w0 o d ds resp :
  (wantsAll options w).1 = Ok true →
  optionsOrAll options w = (Ok l, w0) →
  heap w0 !! l = Some o →
  gqlRequest ENS name = Ok (d :: ds) → resolver d = Some resp →
  let o' := concretized resp o in
  let w1 := mkWorld (<[l := o']> (heap w0)) (log w0 ++ [EvGraph name]) in
  (∀ key, prop o' key =
     if bool_decide (prop o key = VBool true) then prop resp key
     else prop o key) ∧
  heap w1 !! l = Some o' ∧
  getProfileFromName L ENS name options w =
    (let (r, w2) := getDataForName L ENS name l w1 in
     (rmap (λ r, mkProfileResult None (pr_address r) (pr_records r) None) r,
      w2)) ∧
  ((∀ key, prop resp key ≠ VBool true) → ∀ key, prop o' key ≠ VBool true) ∧
  (∀ h r w2,
     prop o "contentHash" = VBool true → prop resp "contentHash" = VStr h →
     getProfileFromName L ENS name options w = (Ok r, w2) →
     ∃ calls encodedName data recordData recs,
       resolved L ENS name o' calls encodedName data recordData ∧
       Forall (λ c, c_type c ≠ KContenthash) calls ∧
       log w2 = log w0 ++ [EvGraph name; EvGetPublicResolver;
                           EvGetUniversalResolver;
                           EvResolve encodedName data] ∧
       pr_records r = Some (Some recs) ∧
       formatRecords L recordData calls o' = Ok recs ∧
       contentHash recs =
         Some (if Hex.allZeroDigits (Str.substringFrom 2 h) then None
               else Some h)).
Proof.
  intros Hw Ho Hl Hq Hr o' w1.
  assert (heap w1 !! l = Some o') as Hl1.
  { apply list_lookup_insert_eq. by eapply lookup_lt_Some. }
  assert (getProfileFromName L ENS name options w =
    (let (r, w2) := getDataForName L ENS name l w1 in
     (rmap (λ r, mkProfileResult None (pr_address r) (pr_records r) None) r,
      w2))) as Hrun.
  { unfold getProfileFromName. unfold bind at 1.
    rewrite (wantsAll_run _ _ _ Hw). unfold bind at 1. rewrite Ho.
    unfold bind at 1. rewrite (graphFetch_some _ _ _ _ _ _ _ _ Hq Hr Hl).
    unfold bind, ret. fold o' w1.
    by destruct (getDataForName L ENS name l w1) as [[r|e] w2]. }
  split; [apply concretized_prop|]. split; [done|]. split; [done|].
  split.
  - intros Hresp key. unfold o'. rewrite concretized_prop.
    case_bool_decide; [apply Hresp|done].
  - intros h r w2 Htrue Hh. rewrite Hrun.
    destruct (getDataForName L ENS name l w1) as [[r'|e] w2'] eqn:E; [|done].
    cbn. intros [= <- <-].
    apply getDataForName_ok in E
      as (o'' & calls & en & data & rd & address & records & Hl' & Hres
          & _ & Hfmt & -> & ->).
    rewrite Hl1 in Hl'. injection Hl' as <-.
    assert (prop o' "contentHash" = VStr h) as Hlit.
    { unfold o'. rewrite concretized_prop, Htrue.
      by rewrite bool_decide_eq_true_2. }
    exists calls, en, data, rd, records. split; [done|]. split.
    { destruct Hres as (? & ? & ? & ? & _ & _ & _ & Hcalls & _).
      apply forwardCalls_descr in Hcalls. by eapply no_contenthash_call. }
    split; [by cbn; rewrite <-app_assoc|]. split; [done|].
    split; [done|]. by eapply formatRecords_literal.
Qed.

(** C6, at the specification's scenario: no options, the index knows
    coin type 60 and a content hash; the forward resolver runs on the
    concretized object and the result carries the on-chain address record
    and the index's content hash. *)
Lemma C6_index_shortcut_witness :
  getProfileFromName demoCodecs (aliceENS [answer addrA] "0xe301") "alice.eth"
    None (start None) =
  (let (r, w2) :=
     getDataForName demoCodecs (aliceENS [answer addrA] "0xe301") "alice.eth" 0
       (mkWorld [concretized (indexed "0xe301") allRecords]
          [EvGraph "alice.eth"]) in
   (rmap (λ r, mkProfileResult None (pr_address r) (pr_records r) None) r, w2)).
Proof.
  refine (proj1 (proj2 (proj2 (C6_index_shortcut demoCodecs
    (aliceENS [answer addrA] "0xe301") "alice.eth" None (start None) 0
    (mkWorld [allRecords] []) allRecords
    (mkDomain (Some (indexed "0xe301"))) [] (indexed "0xe301") _ _ _ _ _)))).
  - reflexivity.
  - reflexivity.
  - reflexivity.
  - reflexivity.
  - reflexivity.
Defined.

(** C6 as stated fails for the content hash: two environments with the
    same resolver and the same on-chain answers, whose index entries differ
    in the content hash alone, give different content hashes, each the
    index's own, after the same four awaited calls (the index query, the
    two contract getters and one [resolve]). *)
Lemma C6_content_hash_is_the_index_value :
  let run h := getProfileFromName demoCodecs (aliceENS [answer addrA] h)
                 "alice.eth" None (start None) in
  let found h := mkProfileResult None (Some hexA)
                   (Some (Some (mkRecords (Some (Some h)) (Some [])
                                  (Some [recordA])))) None in
  (run "0xe301").1 = Ok (found "0xe301") ∧
  (run "0xe302").1 = Ok (found "0xe302") ∧
  log (run "0xe301").2 = log (run "0xe302").2 ∧
  length (log (run "0xe301").2) = 4.
Proof. vm_compute. repeat split; reflexivity. Qed.

(** C9 (amended).  An input with a "." goes to [getProfileFromName], any
    other to [getProfileFromAddress].  There, without options or with
    [texts] or [coinTypes] equal to [true], the name is looked up first
    and a lookup that does not match returns
    [{ name, records: null, match: false }] at once, [name] being the
    lookup's result, after that single awaited call; with options that
    narrow the request [getDataForAddress] runs directly on the address
    and the options, and no lookup is made: whatever the outcome, what is
    awaited is an initial part of the universal resolver's getter followed
    by one [reverse]. *)
Theorem C9_dispatch (L : Codecs) ENS nameOrAddress options :
  (Str.includesChar "." nameOrAddress = true →
     getProfile L ENS nameOrAddress options =
       getProfileFromName L ENS nameOrAddress options) ∧
  (Str.includesChar "." nameOrAddress = false →
     getProfile L ENS nameOrAddress options =
       getProfileFromAddress L ENS nameOrAddress options ∧
     (∀ w nm,
        (wantsAll options w).1 = Ok true →
        getName ENS nameOrAddress = Ok nm → nr_match nm = false →
        getProfile L ENS nameOrAddress options w =
          (Ok (mkProfileResult (Some (NameObj nm)) None (Some None)
                 (Some false)),
           mkWorld (heap w) (log w ++ [EvGetName nameOrAddress]))) ∧
     (∀ w l,
        options = Some l → (wantsAll options w).1 = Ok false →
        getProfile L ENS nameOrAddress options w =
          getDataForAddress L ENS nameOrAddress l w ∧
        ∃ tail encodedNode calls,
          log (getProfile L ENS nameOrAddress options w).2 = log w ++ tail ∧
          tail `prefix_of` reverseAwaits encodedNode calls)).
Proof.
  unfold getProfile. split; intros ->; [done|].
  split; [done|]. split.
  - intros w nm Hw Hnm Hmatch. unfold getProfileFromAddress.
    unfold bind at 1. rewrite (wantsAll_run _ _ _ Hw).
    unfold bind, await, ret. by rewrite Hnm, Hmatch.
  - intros w l -> Hw.
    assert (getProfileFromAddress L ENS nameOrAddress (Some l) w =
            getDataForAddress L ENS nameOrAddress l w) as ->.
    { unfold getProfileFromAddress.
      unfold bind at 1. rewrite (wantsAll_run _ _ _ Hw).
      unfold bind, lift, defined.
      by destruct (getDataForAddress L ENS nameOrAddress l w) as [[r|e] w']. }
    split; [done|].
    destruct (getDataForAddress L ENS nameOrAddress l w) as [r w'] eqn:E.
    by apply getDataForAddress_effects in E as [_ Htail].
Qed.

(** C9, at an input: no options and an address to which no name is bound;
    the early return, after the single name lookup. *)
Lemma C9_dispatch_witness :
  getProfile demoCodecs (unboundENS []) hexA None (start None) =
    (Ok (mkProfileResult (Some (NameObj (mkNameResult "" false))) None
           (Some None) (Some false)),
     mkWorld [] [EvGetName hexA]).
Proof.
  refine (proj1 (proj2 (proj2 (C9_dispatch demoCodecs (unboundENS []) hexA None)
    _)) (start None) (mkNameResult "" false) _ _ _); reflexivity.
Defined.

(** C9 as stated fails when the options narrow the request.  With [{}]
    or [{ contentHash: true }] and an address to which no name is bound, the
    name is not looked up and nothing is returned at once: the universal
    resolver is fetched, its on-chain [reverse] is awaited (carrying the
    contenthash call in the second run), and the lookup then throws the
    TypeError of the decode of [data[-1]]. *)
Lemma C9_narrowed_request_skips_lookup :
  ∃ nm node,
    Str.includesChar "." hexA = false ∧
    getName (unboundENS []) hexA = Ok nm ∧
    nr_match nm = false ∧
    getProfile checkedCodecs (unboundENS []) hexA (Some 0)
      (start (Some noKeys))
    = (Throw TypeError,
       mkWorld [noKeys] [EvGetUniversalResolver; EvReverse node []]) ∧
    getProfile checkedCodecs (unboundENS []) hexA (Some 0)
      (start (Some onlyContentHash))
    = (Throw TypeError,
       mkWorld [onlyContentHash]
         [EvGetUniversalResolver;
          EvReverse node [mkResolverData "contenthash(bytes32)" []]]).
Proof.
  eexists _, _.
  split; [reflexivity|]. split; [reflexivity|]. split; [reflexivity|].
  split; vm_compute; reflexivity.
Qed.

(** C10.  When the index answers with an empty [domains] list,
    [graphFetch] throws a TypeError right after the query, and so does
    every lookup that takes the shortcut, by name or (once the name lookup
    matched) by address: the log ends with the index query, so no on-chain
    call is tried instead.  A [graphFetch] that returns had a first domain
    to destructure. *)
Theorem C10_absent_name_throws (L : Codecs) ENS name :
  gqlRequest ENS name = Ok [] →
  (∀ l w, graphFetch ENS name l w =
            (Throw TypeError, mkWorld (heap w) (log w ++ [EvGraph name]))) ∧
  (∀ options w,
     (wantsAll options w).1 = Ok true →
     ∃ w', getProfileFromName L ENS name options w = (Throw TypeError, w') ∧
           log w' = log w ++ [EvGraph name]) ∧
  (∀ address options w nm,
     (wantsAll options w).1 = Ok true →
     getName ENS address = Ok nm → nr_match nm = true → nr_name nm = name →
     ∃ w', getProfileFromAddress L ENS address options w = (Throw TypeError, w') ∧
           log w' = log w ++ [EvGetName address; EvGraph name]) ∧
  (∀ ENS' l w r w',
     graphFetch ENS' name l w = (Ok r, w') →
     ∃ d ds, gqlRequest ENS' name = Ok (d :: ds)).
Proof.
  intros Hq. split; [|split; [|split]].
  - intros l w. by apply graphFetch_empty.
  - intros options w Hw. unfold getProfileFromName.
    unfold bind at 1. rewrite (wantsAll_run _ _ _ Hw).
    unfold bind at 1.
    destruct options as [l|]; cbn [optionsOrAll].
    + unfold ret at 1. unfold bind. rewrite graphFetch_empty by done.
      by eexists.
    + unfold alloc. unfold bind. rewrite graphFetch_empty by done.
      by eexists.
  - intros address options w nm Hw Hnm Hmatch <-.
    unfold getProfileFromAddress.
    unfold bind at 1. rewrite (wantsAll_run _ _ _ Hw).
    unfold bind at 1. unfold await. rewrite Hnm, Hmatch. cbn [negb].
    unfold bind at 1.
    destruct options as [l|]; cbn [optionsOrAll].
    + unfold ret at 1. unfold bind. rewrite graphFetch_empty by done.
      eexists. split; [done|]. cbn. by rewrite <-app_assoc.
    + unfold alloc. unfold bind. rewrite graphFetch_empty by done.
      eexists. split; [done|]. cbn. by rewrite <-app_assoc.
  - intros ENS' l w r w'. apply graphFetch_ok.
Qed.

(** C10, at an input: the index knows no domain for the name and the
    lookup without options throws after the index query. *)
Lemma C10_absent_name_throws_witness :
  graphFetch (unindexedENS [answer addrA]) "alice.eth" 0
    (start (Some allRecords))
  = (Throw TypeError, mkWorld [allRecords] [EvGraph "alice.eth"]).
Proof.
  refine (proj1 (C10_absent_name_throws demoCodecs (unindexedENS [answer addrA])
    "alice.eth" _) 0 (start (Some allRecords))).
  reflexivity.
Defined.

End SpecProperties.


(** * Further properties of the record formatter *)

Section FormatterProperties.
Context (L : Codecs).

Lemma formatItem_descr {D1 D2} (c1 : Call D1) (c2 : Call D2) item :
  descr c1 = descr c2 → formatItem L c1 item = formatItem L c2 item.
Proof.
  destruct c1 as [k1 d1 t1], c2 as [k2 d2 t2]. unfold descr. cbn.
  intros [= -> ->]. reflexivity.
Qed.

Lemma mapItems_descr {D1 D2} data (calls1 : list (Call D1))
    (calls2 : list (Call D2)) :
  descr <$> calls1 = descr <$> calls2 →
  mapItems L 0 data calls1 = mapItems L 0 data calls2.
Proof.
  revert calls1 calls2. induction data as [|item rest IH];
    intros [|c1 cs1] [|c2 cs2] Hd; try done.
  rewrite !fmap_cons in Hd.
  assert (descr c1 = descr c2) as Hc by congruence.
  assert (descr <$> cs1 = descr <$> cs2) as Hcs by congruence.
  rewrite !mapItems_cons, (formatItem_descr c1 c2 item Hc).
  by rewrite (IH cs1 cs2 Hcs).
Qed.

(** X1.  The formatter reads the key and the type of a call descriptor and
    nothing else: two call lists with the same keys and types, whatever
    their [data], give the same result on the same answers. *)
Theorem X1_formatter_reads_key_and_type {D1 D2} data
    (calls1 : list (Call D1)) (calls2 : list (Call D2)) options :
  descr <$> calls1 = descr <$> calls2 →
  formatRecords L data calls1 options = formatRecords L data calls2 options.
Proof.
  intros Hd. unfold formatRecords, returnedRecords.
  by rewrite (mapItems_descr data calls1 calls2 Hd).
Qed.

(** X2.  The records of two aligned batches put one after the other are
    the records of the first followed by those of the second; a throw of
    the first batch comes before one of the second. *)
Theorem X2_records_of_concatenation {D} ds1 ds2 (cs1 cs2 : list (Call D)) :
  length ds1 = length cs1 →
  returnedRecords L (ds1 ++ ds2) (cs1 ++ cs2) =
    (rs1 <- returnedRecords L ds1 cs1;;
     rs2 <- returnedRecords L ds2 cs2;;
     Ok (rs1 ++ rs2)).
Proof.
  intros Hlen. unfold returnedRecords. rewrite mapItems_app by done.
  destruct (mapItems L 0 ds1 cs1) as [rs1|]; [|done]. cbn [rbind rmap].
  destruct (mapItems L 0 ds2 cs2) as [rs2|]; [|done]. cbn [rbind rmap].
  by rewrite omap_app.
Qed.

Lemma mapItems_is_ok {D} data (calls : list (Call D)) :
  is_ok (mapItems L 0 data calls) = true ↔
  length data ≤ length calls ∧
  ∀ i c item, calls !! i = Some c → data !! i = Some item →
    is_ok (formatItem L c item) = true.
Proof.
  revert calls. induction data as [|item rest IH]; intros calls.
  - split; [|done]. intros _. split; [cbn; lia|]. by intros i c item _ ?.
  - destruct calls as [|c cs].
    + split; [done|]. intros [Hlen _]. cbn in Hlen. lia.
    + rewrite mapItems_cons. split.
      * destruct (formatItem L c item) as [r|] eqn:Hr; [|done]. cbn [rbind].
        destruct (mapItems L 0 rest cs) as [rs|] eqn:Hrs; [|done].
        intros _. destruct (proj1 (IH cs)) as [Hlen Hall]; [by rewrite Hrs|].
        split; [cbn; lia|]. intros [|i] c' item'; cbn.
        -- intros [= <-] [= <-]. by rewrite Hr.
        -- apply Hall.
      * intros [Hlen Hall].
        pose proof (Hall 0 c item eq_refl eq_refl) as Hr.
        destruct (formatItem L c item) as [r|]; [|done]. cbn [rbind].
        destruct (proj2 (IH cs)) as []; [|].
        { split; [cbn in Hlen; lia|]. intros i c' item' Hc Hi.
          by apply (Hall (S i)). }
        by destruct (mapItems L 0 rest cs).
Qed.

(** X3.  The formatter returns exactly when there are no more answers
    than calls, every answer formats under its call, and a [contentHash]
    given as a string is a hex string; otherwise it throws, without a
    partial result. *)
Theorem X3_formatter_returns_iff {D} data (calls : list (Call D)) options :
  is_ok (formatRecords L data calls options) = true ↔
  length data ≤ length calls ∧
  (∀ i c item, calls !! i = Some c → data !! i = Some item →
     is_ok (formatItem L c item) = true) ∧
  (∀ s, prop options "contentHash" = VStr s → Hex.isHexString s = true).
Proof.
  unfold formatRecords, returnedRecords.
  pose proof (mapItems_is_ok data calls) as Hmap.
  destruct (mapItems L 0 data calls) as [rs|]; cbn [rmap rbind].
  - destruct (proj1 Hmap eq_refl) as [Hlen Hall].
    unfold contentHashBucket.
    destruct (prop options "contentHash") as [| |[]|s|l]; cbn;
      try (split; [intros _; repeat split; try done|done]).
    unfold Hex.hexStripZeros.
    destruct (Hex.isHexString s) eqn:Hs; cbn.
    + split; [|done]. intros _. repeat split; try done. by intros ? [= <-].
    + split; [done|]. intros (_ & _ & Hhex).
      specialize (Hhex s eq_refl). congruence.
  - split; [done|]. intros (Hlen & Hall & _).
    by destruct (proj2 Hmap (conj Hlen Hall)).
Qed.

(** X4.  A bucket is in the output exactly when its field of the options
    is truthy: an empty array of text keys gives an empty [texts] list,
    an absent or [false] field gives no [texts] property at all; likewise
    for [coinTypes] and [contentHash]. *)
Theorem X4_buckets_follow_truthiness {D} data (calls : list (Call D)) options
    recs :
  formatRecords L data calls options = Ok recs →
  (is_Some (texts recs) ↔ truthy (prop options "texts") = true) ∧
  (is_Some (coinTypes recs) ↔ truthy (prop options "coinTypes") = true) ∧
  (is_Some (contentHash recs) ↔ truthy (prop options "contentHash") = true).
Proof.
  intros (rs & _ & Hch & -> & ->)%formatRecords_ok.
  split; [|split].
  - destruct (truthy (prop options "texts")); cbn.
    + split; [done|by eexists].
    + split; [by intros [? ?]|done].
  - destruct (truthy (prop options "coinTypes")); cbn.
    + split; [done|by eexists].
    + split; [by intros [? ?]|done].
  - unfold contentHashBucket in Hch.
    destruct (prop options "contentHash") as [| |b|s|l]; cbn in *.
    + injection Hch as <-. split; [by intros [? ?]|done].
    + injection Hch as <-. split; [by intros [? ?]|done].
    + destruct b; injection Hch as <-.
      * split; [done|by eexists].
      * split; [by intros [? ?]|done].
    + apply rbind_ok in Hch as (t & Ht & [= <-]).
      split; [|by eexists]. intros _. apply bool_decide_eq_true.
      intros ->. by vm_compute in Ht.
    + injection Hch as <-. split; [done|by eexists].
Qed.

Lemma mapItems_sublist {D} data (calls : list (Call D)) rs :
  mapItems L 0 data calls = Ok rs →
  recordOf <$> omap id rs `sublist_of` descr <$> calls.
Proof.
  revert calls rs. induction data as [|item rest IH]; intros calls rs.
  - intros [= <-]. apply sublist_nil_l.
  - destruct calls as [|c cs]; [done|]. rewrite mapItems_cons.
    intros (r & Hr & (rs' & Hrs & [= <-])%rbind_ok)%rbind_ok.
    specialize (IH _ _ Hrs).
    change (descr <$> c :: cs) with (descr c :: (descr <$> cs)).
    destruct r as [x|].
    + change (recordOf <$> omap id (Some x :: rs'))
        with (recordOf x :: (recordOf <$> omap id rs')).
      apply formatItem_kept in Hr as (Hk & Ht & _).
      unfold recordOf at 1, descr at 1. rewrite Hk, Ht.
      by apply sublist_skip.
    + change (recordOf <$> omap id (None :: rs'))
        with (recordOf <$> omap id rs').
      by apply sublist_cons.
Qed.

(** X5.  The records come in the order of the calls: their keys and kinds
    are those of the call list with some calls left out, never reordered
    or repeated; so are the [texts] and [coinTypes] buckets. *)
Theorem X5_records_keep_call_order {D} data (calls : list (Call D)) options
    recs :
  formatRecords L data calls options = Ok recs →
  recordOf <$> default [] (texts recs) `sublist_of` descr <$> calls ∧
  recordOf <$> default [] (coinTypes recs) `sublist_of` descr <$> calls.
Proof.
  intros (rs & Hrs & _ & -> & ->)%formatRecords_ok.
  unfold returnedRecords in Hrs. apply rmap_ok in Hrs as (os & Hos & ->).
  pose proof (mapItems_sublist _ _ _ Hos) as Hsub.
  split.
  - destruct (truthy (prop options "texts")); cbn; [|apply sublist_nil_l].
    etrans; [|exact Hsub]. apply fmap_sublist, sublist_filter.
  - destruct (truthy (prop options "coinTypes")); cbn; [|apply sublist_nil_l].
    etrans; [|exact Hsub]. apply fmap_sublist, sublist_filter.
Qed.

End FormatterProperties.

Section FormatterExamples.
Import Demo.

(** X1, at an input: the reverse call for coin type 60, with its resolver
    data, formats like a bare descriptor of the same key and kind. *)
Lemma X1_formatter_reads_key_and_type_witness :
  formatRecords demoCodecs [Hex.hexlify (answer addrA)] only60ReverseCalls
    only60 =
  formatRecords demoCodecs [Hex.hexlify (answer addrA)] [coinCall "60"] only60.
Proof.
  apply (X1_formatter_reads_key_and_type demoCodecs). reflexivity.
Defined.

(** X2, at an input: a text batch followed by an address batch. *)
Lemma X2_records_of_concatenation_witness :
  returnedRecords demoCodecs
    ([Hex.hexlify (answer (bytesOfString "a@b.c"))]
       ++ [Hex.hexlify (answer addrA)])
    ([emailCall] ++ [coinCall "60"]) =
  (rs1 <- returnedRecords demoCodecs
            [Hex.hexlify (answer (bytesOfString "a@b.c"))] [emailCall];;
   rs2 <- returnedRecords demoCodecs [Hex.hexlify (answer addrA)]
            [coinCall "60"];;
   Ok (rs1 ++ rs2)).
Proof.
  apply (X2_records_of_concatenation demoCodecs). reflexivity.
Defined.

(** X4, at an input: an empty array of text keys is truthy and the output
    has a [texts] list; it has no [coinTypes] property. *)
Lemma X4_buckets_follow_truthiness_witness :
  is_Some (texts (mkRecords None (Some []) None)) ∧
  ¬ is_Some (coinTypes (mkRecords None (Some []) None)).
Proof.
  pose proof (X4_buckets_follow_truthiness demoCodecs [] ([] : list (Call unit))
                noTexts (mkRecords None (Some []) None) eq_refl)
    as (Ht & Hc & _).
  split.
  - apply Ht. reflexivity.
  - intros H. apply Hc in H. discriminate H.
Defined.

(** X5, at an input: the text answer is empty and dropped, the address
    record stays behind, in the place of its call. *)
Lemma X5_records_keep_call_order_witness :
  recordOf <$> [recordA] `sublist_of` descr <$> [emailCall; coinCall "60"].
Proof.
  refine (proj2 (X5_records_keep_call_order demoCodecs
    [Hex.hexlify (answer []); Hex.hexlify (answer addrA)]
    [emailCall; coinCall "60"] emailAnd60
    (mkRecords None (Some []) (Some [recordA])) _)).
  vm_compute; reflexivity.
Defined.

End FormatterExamples.

(** * Further properties of the call builders *)

Section BuilderProperties.
Context (L : Codecs).

(** X6.  Whenever a builder returns, its call list is the request and
    nothing more: one descriptor per text key, then one per coin type, in
    the order asked and with repetitions kept, then the contentHash
    descriptor when [contentHash] is the boolean [true]. *)
Theorem X6_call_list_is_the_request pr name options :
  (∀ calls, forwardCalls L pr name options = Ok calls →
     descr <$> calls = requested options) ∧
  (∀ calls, reverseCalls L options = Ok calls →
     descr <$> calls = requested options).
Proof.
  split; intros calls; [apply forwardCalls_descr|apply reverseCalls_descr].
Qed.

Lemma addCalls_data pr calls recordArray k functionArgs name calls' :
  addCalls L pr calls recordArray k functionArgs name = Ok calls' →
  ∃ new, calls' = calls ++ new ∧
    Forall (λ c, c_type c = k ∧
              ∃ node, namehash L name = Ok node ∧
                encodeData pr (kindName k +:+ functionArgs)
                  [AStr node; AStr (c_key c)] = Ok (c_data c)) new.
Proof.
  revert calls. induction recordArray as [|item rest IH]; intros calls.
  - intros [= <-]. exists []. by rewrite app_nil_r.
  - cbn [addCalls].
    intros (node & Hnode & (data & Hdata & Hrest)%rbind_ok)%rbind_ok.
    destruct (IH _ Hrest) as (new & -> & Hnew).
    exists (mkCall item data k :: new). split; [by rewrite <-app_assoc|].
    constructor; [|done]. split; [done|]. by exists node.
Qed.

Lemma addCallsIf_data pr calls field k functionArgs name calls' :
  addCallsIf L pr calls field k functionArgs name = Ok calls' →
  ∃ new, calls' = calls ++ new ∧
    Forall (λ c, c_type c = k ∧
              ∃ node, namehash L name = Ok node ∧
                encodeData pr (kindName k +:+ functionArgs)
                  [AStr node; AStr (c_key c)] = Ok (c_data c)) new.
Proof.
  unfold addCallsIf. destruct (truthy field).
  - destruct field; try done. apply addCalls_data.
  - intros [= <-]. exists []. by rewrite app_nil_r.
Qed.

(** X7.  In the forward call list every text or addr call is the encoding
    of its own signature over the name's hash and its own key, so a call
    and the record read from its slot speak of the same key; the
    contenthash call is encoded over the name as given, not over its
    hash. *)
Theorem X7_forward_call_data pr name options calls :
  forwardCalls L pr name options = Ok calls →
  Forall (λ c,
    match c_type c with
    | KContenthash =>
        c_key c = "contentHash" ∧
        encodeData pr "contenthash(bytes32)" [AStr name] = Ok (c_data c)
    | k =>
        ∃ node, namehash L name = Ok node ∧
          encodeData pr (kindName k +:+ functionArgsOf k)
            [AStr node; AStr (c_key c)] = Ok (c_data c)
    end) calls.
Proof.
  unfold forwardCalls.
  intros (cs1 & H1%addCallsIf_data &
          (cs2 & H2%addCallsIf_data & (cs3 & H3 & H4)%rbind_ok)%rbind_ok)%rbind_ok.
  cbn in H4. injection H4 as <-.
  destruct H1 as (new1 & -> & Hnew1), H2 as (new2 & -> & Hnew2).
  assert (Forall (λ c : Call string,
    match c_type c with
    | KContenthash =>
        c_key c = "contentHash" ∧
        encodeData pr "contenthash(bytes32)" [AStr name] = Ok (c_data c)
    | k =>
        ∃ node, namehash L name = Ok node ∧
          encodeData pr (kindName k +:+ functionArgsOf k)
            [AStr node; AStr (c_key c)] = Ok (c_data c)
    end) ([] ++ new1 ++ new2)) as Hboth.
  { apply Forall_app. split; [constructor|]. apply Forall_app. split.
    - eapply Forall_impl; [exact Hnew1|]. by intros c [-> ?].
    - eapply Forall_impl; [exact Hnew2|]. by intros c [-> ?]. }
  rewrite app_assoc in Hboth.
  destruct (prop options "contentHash") as [| |[]| |]; cbn in H3;
    try (injection H3 as <-; exact Hboth).
  apply rbind_ok in H3 as (data & Hdata & [= <-]).
  apply Forall_app. split; [done|]. by repeat constructor.
Qed.

(** X8.  In the reverse call list a text or addr call carries its own
    signature and, for a key that is not the empty string, one argument:
    the key encoded under the type string ["(bytes32"], which is what
    [callArgs.split(',')[0].replace(')', '')] leaves of either argument
    list; for the empty key, and for the contenthash call, it carries no
    argument. *)
Theorem X8_reverse_call_data options calls :
  reverseCalls L options = Ok calls →
  Forall (λ c,
    match c_type c with
    | KContenthash =>
        c_key c = "contentHash" ∧
        c_data c = mkResolverData "contenthash(bytes32)" []
    | k =>
        sig (c_data c) = kindName k +:+ functionArgsOf k ∧
        if bool_decide (c_key c = "") then rd_data (c_data c) = []
        else ∃ enc, abiEncode L "(bytes32" (c_key c) = Ok enc ∧
                    rd_data (c_data c) = [mkResolverArg "(bytes32" enc]
    end) calls.
Proof.
  unfold reverseCalls.
  intros (cs1 & H1%addReverseCallsIf_data &
          (cs2 & H2%addReverseCallsIf_data &
           (cs3 & H3 & H4)%rbind_ok)%rbind_ok)%rbind_ok.
  cbn in H4. injection H4 as <-.
  destruct H1 as (new1 & -> & Hnew1), H2 as (new2 & -> & Hnew2).
  assert (Forall (λ c : Call ResolverData,
    match c_type c with
    | KContenthash =>
        c_key c = "contentHash" ∧
        c_data c = mkResolverData "contenthash(bytes32)" []
    | k =>
        sig (c_data c) = kindName k +:+ functionArgsOf k ∧
        if bool_decide (c_key c = "") then rd_data (c_data c) = []
        else ∃ enc, abiEncode L "(bytes32" (c_key c) = Ok enc ∧
                    rd_data (c_data c) = [mkResolverArg "(bytes32" enc]
    end) ([] ++ new1 ++ new2)) as Hboth.
  { apply Forall_app. split; [constructor|]. apply Forall_app. split.
    - eapply Forall_impl; [exact Hnew1|]. intros c [-> Hc].
      by apply (makeResolverData_key L KText).
    - eapply Forall_impl; [exact Hnew2|]. intros c [-> Hc].
      by apply (makeResolverData_key L KAddr). }
  rewrite app_assoc in Hboth.
  destruct (prop options "contentHash") as [| |[]| |]; cbn in H3;
    try (injection H3 as <-; exact Hboth).
  injection H3 as <-. apply Forall_app. split; [done|]. by repeat constructor.
Qed.

End BuilderProperties.

(** * Further properties of the resolvers *)

Section ResolverEffects.
Context (L : Codecs).

Lemma findIndex60_requested {D} (calls : list (Call D)) n :
  findIndex60 calls = Some n → "60" ∈ (descr <$> calls).*1.
Proof.
  unfold findIndex60.
  destruct (list_find (λ x : Call D, c_key x = "60") calls) as [[i c]|] eqn:E;
    [|done].
  intros _. apply list_find_Some in E as (Hi & Hkey & _).
  apply list_elem_of_fmap. exists (descr c). split; [by rewrite <-Hkey|].
  apply list_elem_of_fmap. exists c. split; [done|].
  by eapply list_elem_of_lookup_2.
Qed.

Lemma getDataForName_needs_60 ENS name l w r w' :
  getDataForName L ENS name l w = (Ok r, w') →
  ∃ options, heap w !! l = Some options ∧ "60" ∈ (requested options).*1.
Proof.
  intros (options & calls & en & data & rd & address & records & Hl & Hres
          & Hslot & _)%getDataForName_ok.
  exists options. split; [done|].
  destruct Hres as (c & pr & ur & resolver & _ & _ & _ & Hcalls & _).
  apply forwardCalls_descr in Hcalls. rewrite <-Hcalls.
  apply decodeSlot_ok in Hslot as (n & item & bs & Hn & _).
  by eapply findIndex60_requested.
Qed.

Lemma getDataForAddress_needs_60 ENS address l w r w' :
  getDataForAddress L ENS address l w = (Ok r, w') →
  ∃ options, heap w !! l = Some options ∧ "60" ∈ (requested options).*1.
Proof.
  intros Hrun.
  destruct (getDataForAddress_ok L _ _ _ _ _ _ Hrun)
    as (options & calls & node & name & data & Hl & Hrev).
  exists options. split; [done|].
  rewrite (getDataForAddress_reversed L _ _ _ _ _ _ _ _ _ Hl Hrev) in Hrun.
  injection Hrun as Hrun _.
  apply rbind_ok in Hrun as (primary & Hslot & _).
  destruct Hrev as (c & ur & _ & _ & Hcalls & _).
  apply reverseCalls_descr in Hcalls. rewrite <-Hcalls.
  apply decodeSlot_ok in Hslot as (n & item & bs & Hn & _).
  by eapply findIndex60_requested.
Qed.

(** X9.  Whatever their outcome, the two resolvers leave the heap as it
    was (the options are read, never written), and what they await is an
    initial part of a fixed sequence, cut at the first throw: on the forward
    path the getters of the public and of the universal resolver, then one
    [resolve]; on the reverse path the getter of the universal resolver,
    then one [reverse].  A run that returns has awaited all of it. *)
Theorem X9_resolvers_await_in_order ENS s l w :
  (heap (getDataForName L ENS s l w).2 = heap w ∧
   ∃ tail encodedName data,
     log (getDataForName L ENS s l w).2 = log w ++ tail ∧
     tail `prefix_of` forwardAwaits encodedName data ∧
     (is_ok (getDataForName L ENS s l w).1 = true →
      tail = forwardAwaits encodedName data)) ∧
  (heap (getDataForAddress L ENS s l w).2 = heap w ∧
   ∃ tail encodedNode calls,
     log (getDataForAddress L ENS s l w).2 = log w ++ tail ∧
     tail `prefix_of` reverseAwaits encodedNode calls ∧
     (is_ok (getDataForAddress L ENS s l w).1 = true →
      tail = reverseAwaits encodedNode calls)).
Proof.
  split.
  - destruct (getDataForName L ENS s l w) as [[r|e] w'] eqn:E.
    + apply getDataForName_ok in E
        as (options & calls & en & data & rd & address & records & _ & _ & _
            & _ & _ & ->).
      split; [done|]. by exists (forwardAwaits en data), en, data.
    + apply getDataForName_effects in E
        as [Hheap (tail & en & data & Hlog & Htail)].
      split; [done|]. by exists tail, en, data.
  - destruct (getDataForAddress L ENS s l w) as [[r|e] w'] eqn:E.
    + destruct (getDataForAddress_ok L _ _ _ _ _ _ E)
        as (options & calls & node & name & data & Hl & Hrev).
      rewrite (getDataForAddress_reversed L _ _ _ _ _ _ _ _ _ Hl Hrev) in E.
      injection E as _ <-.
      split; [done|].
      by exists (reverseAwaits node (c_data <$> calls)), node,
                (c_data <$> calls).
    + apply getDataForAddress_effects in E
        as [Hheap (tail & node & calls & Hlog & Htail)].
      split; [done|]. by exists tail, node, calls.
Qed.

(** X10.  A resolver returns only for a request that names ["60"] among
    its text keys or coin types: for every other request, the empty
    options object included, it throws. *)
Theorem X10_returns_only_with_60 ENS s l w r w' :
  getDataForName L ENS s l w = (Ok r, w') ∨
  getDataForAddress L ENS s l w = (Ok r, w') →
  ∃ options, heap w !! l = Some options ∧ "60" ∈ (requested options).*1.
Proof.
  intros [H|H];
    [by eapply getDataForName_needs_60|by eapply getDataForAddress_needs_60].
Qed.

(** X19.  Once the batch came back, the slot of the first descriptor
    with key ["60"] decodes to [bs] and the formatter returns, the forward
    resolver returns the hexlified [bs] as [address] beside the records:
    the primary address is not filtered, so an address of zero bytes is
    returned as such while its record is dropped; it is in lower case. *)
Theorem X19_forward_result ENS name l w options calls encodedName data
    recordData i item bs records :
  heap w !! l = Some options →
  resolved L ENS name options calls encodedName data recordData →
  findIndex60 calls = Some i → recordData !! i = Some item →
  decodeBytes L item = Ok bs →
  formatRecords L recordData calls options = Ok records →
  getDataForName L ENS name l w =
    (Ok (mkProfileResult None (Some (Hex.hexlify bs)) (Some (Some records))
           None),
     mkWorld (heap w) (log w ++ forwardAwaits encodedName data)) ∧
  Str.toLowerCase (Hex.hexlify bs) = Hex.hexlify bs ∧
  (Hex.allZero bs = true → c_type <$> calls !! i = Some KAddr →
   ∀ x, x ∈ default [] (coinTypes records) → key x = "60" →
   ∃ j, i < j ∧ c_key <$> calls !! j = Some "60").
Proof.
  intros Hl Hres Hi Hitem Hbs Hfmt.
  split; [|split].
  - rewrite (getDataForName_resolved L _ _ _ _ _ _ _ _ _ Hl Hres).
    assert (decodeSlot L recordData (findIndex60 calls) = Ok (Hex.hexlify bs))
      as -> by (apply decodeSlot_ok; by exists i, item, bs).
    cbn [rbind]. by rewrite Hfmt.
  - apply HexFacts.toLowerCase_hexlify.
  - intros Hz Hci x Hx Hkey.
    apply formatRecords_ok in Hfmt as (rs & Hrs & _ & _ & Hc).
    rewrite Hc in Hx. destruct (truthy (prop options "coinTypes")); cbn in Hx;
      [|by apply elem_of_nil in Hx].
    apply elem_of_ofKind in Hx as [Hk Hx].
    destruct (returnedRecords_source L _ _ _ _ Hrs Hx)
      as (j & c & item' & Hj & Hd & Hkept).
    pose proof Hkept as Hkept'.
    apply formatItem_kept in Hkept' as (Hkey' & Hty & Hset & _).
    exists j. split; [|by rewrite Hj; cbn; rewrite <-Hkey', Hkey].
    unfold findIndex60 in Hi.
    destruct (list_find (λ x : Call string, c_key x = "60") calls)
      as [[i' c']|] eqn:Hfind; [|done]. injection Hi as ->.
    apply list_find_Some in Hfind as (Hi' & _ & Hbefore).
    destruct (Nat.lt_trichotomy j i) as [Hlt|[->|Hgt]]; [| |done].
    + exfalso. eapply Hbefore; [exact Hj|done|]. by rewrite <-Hkey'.
    + exfalso. rewrite Hi' in Hj. injection Hj as ->.
      rewrite Hitem in Hd. injection Hd as <-.
      apply Hset. unfold unset. rewrite Hi' in Hci. cbn in Hci.
      injection Hci as ->. by exists bs.
Qed.

(** X11.  The reverse resolver reads the queried address through
    [toLowerCase] only: two spellings of an address that differ in case
    give the same run, result and log alike. *)
Theorem X11_reverse_ignores_case ENS address1 address2 l w :
  Str.toLowerCase address1 = Str.toLowerCase address2 →
  getDataForAddress L ENS address1 l w = getDataForAddress L ENS address2 l w.
Proof.
  intros Hcase. unfold getDataForAddress, reverseNode. by rewrite Hcase.
Qed.

End ResolverEffects.

(** * Further properties of the index shortcut and the entry points *)

Section ShortcutProperties.
Context (L : Codecs).

(** [w'] differs from [w] at most in the object at [l]. *)
Lemma concretize_frame l resp keys w r w' :
  concretize l resp keys w = (r, w') →
  log w' = log w ∧ length (heap w') = length (heap w) ∧
  ∀ l', l' ≠ l → heap w' !! l' = heap w !! l'.
Proof.
  revert w. induction keys as [|key rest IH]; intros w.
  - intros [= <- <-]. done.
  - cbn [concretize]. unfold bind at 1, load at 1.
    destruct (heap w !! l) as [o|]; [|by intros [= <- <-]].
    destruct (decide (prop o key = VBool true)) as [Ht|Ht].
    + rewrite Ht. unfold bind at 1. unfold bind at 1. unfold lift, defined.
      destruct resp as [resp|]; [|by intros [= <- <-]].
      unfold store. intros (Hlog & Hlen & Hother)%IH. cbn in *.
      rewrite length_insert in Hlen. split; [done|]. split; [done|].
      intros l' Hne. rewrite Hother by done.
      by rewrite list_lookup_insert_ne.
    + assert (bind (match prop o key with
                    | VBool true =>
                        bind (lift (defined resp))
                          (λ r, store l (<[key := prop r key]> o))
                    | _ => ret ()
                    end) (λ _, concretize l resp rest) w
              = concretize l resp rest w) as ->.
      { unfold bind, ret. by destruct (prop o key) as [| |[]| |]. }
      apply IH.
Qed.

Lemma graphFetch_frame ENS name l w r w' :
  graphFetch ENS name l w = (r, w') →
  log w' = log w ++ [EvGraph name] ∧
  length (heap w') = length (heap w) ∧
  (∀ l', l' ≠ l → heap w' !! l' = heap w !! l') ∧
  (∀ x, r = Ok x → x = l).
Proof.
  unfold graphFetch. unfold bind at 1. unfold await.
  destruct (gqlRequest ENS name) as [response|e]; [|by intros [= <- <-]].
  unfold bind at 1. unfold lift.
  destruct (rmap resolver (defined (head response))) as [resp|e];
    [|by intros [= <- <-]].
  unfold bind at 1. unfold load at 1. cbn [heap].
  destruct (heap w !! l) as [o|]; [|by intros [= <- <-]].
  unfold bind.
  destruct (concretize l resp (map_to_list o).*1
              (mkWorld (heap w) (log w ++ [EvGraph name])))
    as [[[]|e] w1] eqn:E;
    apply concretize_frame in E as (Hlog & Hlen & Hother); cbn in *.
  - unfold ret. intros [= <- <-]. repeat split; try done. by intros ? [= <-].
  - by intros [= <- <-].
Qed.

(** X12.  Whatever its outcome, [graphFetch] awaits the one index query,
    changes no object of the heap but the one it was given, the heap
    keeping its size, and when it returns it returns the reference it was
    given. *)
Theorem X12_graphFetch_touches_one_object ENS name l w :
  log (graphFetch ENS name l w).2 = log w ++ [EvGraph name] ∧
  length (heap (graphFetch ENS name l w).2) = length (heap w) ∧
  (∀ l', l' ≠ l → heap (graphFetch ENS name l w).2 !! l' = heap w !! l') ∧
  (∀ x, (graphFetch ENS name l w).1 = Ok x → x = l).
Proof.
  destruct (graphFetch ENS name l w) as [r w'] eqn:E.
  by apply graphFetch_frame in E.
Qed.

Lemma concretize_null l keys w (o : gmap string jsval) :
  heap w !! l = Some o →
  concretize l None keys w =
    (if existsb (λ k, bool_decide (prop o k = VBool true)) keys
     then Throw TypeError else Ok (), w).
Proof.
  intros Hl. induction keys as [|key rest IH]; [done|].
  cbn [concretize existsb]. unfold bind at 1, load at 1. rewrite Hl.
  case_bool_decide as Ht; cbn [orb].
  - by rewrite Ht.
  - assert (bind (match prop o key with
                  | VBool true =>
                      bind (lift (defined None))
                        (λ r, store l (<[key := prop r key]> o))
                  | _ => ret ()
                  end) (λ _, concretize l None rest) w
            = concretize l None rest w) as ->; [|done].
    unfold bind, ret. by destruct (prop o key) as [| |[]| |].
Qed.

Lemma existsb_true_field (o : gmap string jsval) :
  existsb (λ k, bool_decide (prop o k = VBool true)) (map_to_list o).*1 = true
  ↔ ∃ k, prop o k = VBool true.
Proof.
  rewrite existsb_exists. split.
  - intros (k & _ & Hk). exists k. by apply bool_decide_eq_true in Hk.
  - intros (k & Hk). exists k. split; [|by apply bool_decide_eq_true].
    apply list_elem_of_In, list_elem_of_fmap. exists (k, VBool true).
    split; [done|]. by apply elem_of_map_to_list, prop_true.
Qed.

Lemma graphFetch_null_resolver ENS name l w
    (o : gmap string jsval) d ds :
  gqlRequest ENS name = Ok (d :: ds) → resolver d = None →
  heap w !! l = Some o →
  ((∃ k, prop o k = VBool true) →
     graphFetch ENS name l w =
       (Throw TypeError, mkWorld (heap w) (log w ++ [EvGraph name]))) ∧
  ((∀ k, prop o k ≠ VBool true) →
     graphFetch ENS name l w =
       (Ok l, mkWorld (heap w) (log w ++ [EvGraph name]))).
Proof.
  intros Hq Hr Hl.
  assert (graphFetch ENS name l w =
    (if existsb (λ k, bool_decide (prop o k = VBool true)) (map_to_list o).*1
     then Throw TypeError else Ok l,
     mkWorld (heap w) (log w ++ [EvGraph name]))) as ->.
  { unfold graphFetch. unfold bind at 1. unfold await. rewrite Hq.
    unfold bind at 1. unfold lift. cbn [head defined rmap]. rewrite Hr.
    unfold bind at 1. unfold load at 1. cbn [heap]. rewrite Hl.
    unfold bind. rewrite (concretize_null l _ _ o) by done.
    by destruct (existsb _ _). }
  split.
  - intros Hex. apply existsb_true_field in Hex. by rewrite Hex.
  - intros Hall.
    destruct (existsb _ _) eqn:E; [|done].
    apply existsb_true_field in E as (k & Hk). by destruct (Hall k).
Qed.

(** X13.  When the first domain of the index answer has no resolver
    ([resolver: null]), [graphFetch] throws a TypeError if some field of
    the options is the boolean [true], and otherwise returns the options
    as they are. *)
Theorem X13_graphFetch_without_resolver ENS name l w (o : gmap string jsval)
    d ds :
  gqlRequest ENS name = Ok (d :: ds) → resolver d = None →
  heap w !! l = Some o →
  ((∃ k, prop o k = VBool true) →
     graphFetch ENS name l w =
       (Throw TypeError, mkWorld (heap w) (log w ++ [EvGraph name]))) ∧
  ((∀ k, prop o k ≠ VBool true) →
     graphFetch ENS name l w =
       (Ok l, mkWorld (heap w) (log w ++ [EvGraph name]))).
Proof. apply graphFetch_null_resolver. Qed.

Lemma wantsAll_heap options w lg :
  wantsAll options (mkWorld (heap w) lg) =
    ((wantsAll options w).1, mkWorld (heap w) lg).
Proof.
  unfold wantsAll. destruct options as [l|]; [|done].
  unfold bind, load, ret. cbn [heap]. by destruct (heap w !! l).
Qed.

(** X14.  On the shortcut path an address lookup whose name lookup
    matches is the name lookup of that name, run after the one awaited
    [getName]: same index query, same forward resolution, same throws; of
    its result the records are kept, the primary address is dropped, and
    [name] and [match: true] are added. *)
Theorem X14_address_path_is_name_path ENS address options w nm :
  (wantsAll options w).1 = Ok true →
  getName ENS address = Ok nm → nr_match nm = true →
  getProfileFromAddress L ENS address options w =
    (let (r, w') :=
       getProfileFromName L ENS (nr_name nm) options
         (mkWorld (heap w) (log w ++ [EvGetName address])) in
     (rmap (λ r, mkProfileResult (Some (NameStr (nr_name nm))) None
                   (pr_records r) (Some true)) r, w')).
Proof.
  intros Hw Hnm Hmatch.
  unfold getProfileFromAddress, getProfileFromName.
  unfold bind at 1. rewrite (wantsAll_run _ _ _ Hw).
  unfold bind at 1. unfold await. rewrite Hnm, Hmatch. cbn [negb].
  unfold bind at 4. rewrite wantsAll_heap, Hw.
  set (w1 := mkWorld (heap w) (log w ++ [EvGetName address])).
  unfold bind, ret.
  destruct (optionsOrAll options w1) as [[l|e] w2]; [|done].
  destruct (graphFetch ENS (nr_name nm) l w2) as [[l'|e] w3]; [|done].
  by destruct (getDataForName L ENS (nr_name nm) l' w3) as [[r|e] w4].
Qed.

(** X15.  A shortcut lookup called with an options object leaves that
    object concretized whether the lookup then returns or throws; and
    when the index holds no boolean for [texts] and [coinTypes], a second
    lookup with the same object no longer takes the shortcut. *)
Theorem X15_options_stay_concretized ENS name l w (o : gmap string jsval)
    d ds resp :
  heap w !! l = Some o → (wantsAll (Some l) w).1 = Ok true →
  gqlRequest ENS name = Ok (d :: ds) → resolver d = Some resp →
  let w' := (getProfileFromName L ENS name (Some l) w).2 in
  heap w' = <[l := concretized resp o]> (heap w) ∧
  (prop resp "texts" ≠ VBool true → prop resp "coinTypes" ≠ VBool true →
   (wantsAll (Some l) w').1 = Ok false).
Proof.
  intros Hl Hw Hq Hr w'.
  assert (heap w' = <[l := concretized resp o]> (heap w)) as Hheap.
  { unfold w', getProfileFromName. unfold bind at 1.
    rewrite (wantsAll_run _ _ _ Hw). unfold bind at 1. cbn [optionsOrAll].
    unfold ret at 1. unfold bind at 1.
    rewrite (graphFetch_some _ _ _ _ _ _ _ _ Hq Hr Hl). unfold bind, ret.
    destruct (getDataForName L ENS name l _) as [[r|e] w2] eqn:E;
      apply getDataForName_effects in E as [Hh _]; cbn [snd];
      exact Hh. }
  split; [done|]. intros Ht Hc.
  unfold wantsAll, bind, load, ret. rewrite Hheap.
  rewrite list_lookup_insert_eq by (by eapply lookup_lt_Some). cbn.
  rewrite !concretized_prop. f_equal.
  rewrite !bool_decide_eq_false_2; [done| |]; by case_bool_decide.
Qed.

(** X16.  A name lookup without options returns only when the first
    domain of the index answer has a resolver whose [texts] or
    [coinTypes] list names ["60"]; with any other index answer it
    throws. *)
Theorem X16_no_options_needs_indexed_60 ENS name w r w' :
  getProfileFromName L ENS name None w = (Ok r, w') →
  ∃ d ds resp keys,
    gqlRequest ENS name = Ok (d :: ds) ∧ resolver d = Some resp ∧
    (prop resp "texts" = VArr keys ∨ prop resp "coinTypes" = VArr keys) ∧
    "60" ∈ keys.
Proof.
  unfold getProfileFromName.
  intros (b & w0 & [= <- <-] & H)%bind_ok.
  apply bind_ok in H as (l & w1 & Halloc & H).
  apply bind_ok in H as (l' & w2 & Hfetch & H).
  apply bind_ok in H as (r' & w3 & Hrun & _).
  unfold optionsOrAll, alloc in Halloc. injection Halloc as <- <-.
  set (w1 := mkWorld (heap w ++ [allRecords]) (log w)) in *.
  assert (heap w1 !! length (heap w) = Some allRecords) as Hl.
  { unfold w1. cbn. by rewrite lookup_app_r, Nat.sub_diag. }
  destruct (graphFetch_ok _ _ _ _ _ _ Hfetch) as (d & ds & Hq).
  destruct (resolver d) as [resp|] eqn:Hr.
  - rewrite (graphFetch_some _ _ _ _ _ _ _ _ Hq Hr Hl) in Hfetch.
    injection Hfetch as <- <-.
    apply getDataForName_needs_60 in Hrun as (o' & Ho' & H60).
    cbn [heap] in Ho'.
    rewrite list_lookup_insert_eq in Ho' by (by eapply lookup_lt_Some).
    apply (inj Some) in Ho'. subst o'.
    exists d, ds, resp. unfold requested in H60.
    rewrite !concretized_prop in H60.
    change (prop allRecords "texts") with (VBool true) in H60.
    change (prop allRecords "coinTypes") with (VBool true) in H60.
    rewrite !bool_decide_eq_true_2 in H60 by done.
    rewrite !fmap_app, !elem_of_app in H60.
    destruct H60 as [H60|[H60|H60]].
    + destruct (prop resp "texts") as [| | | |keys]; cbn in H60;
        try by apply elem_of_nil in H60.
      exists keys. split; [done|]. split; [done|]. split; [by left|].
      rewrite <-list_fmap_compose in H60.
      apply list_elem_of_fmap in H60 as (k & -> & Hk). done.
    + destruct (prop resp "coinTypes") as [| | | |keys]; cbn in H60;
        try by apply elem_of_nil in H60.
      exists keys. split; [done|]. split; [done|]. split; [by right|].
      rewrite <-list_fmap_compose in H60.
      apply list_elem_of_fmap in H60 as (k & -> & Hk). done.
    + case_bool_decide; cbn in H60; [|by apply elem_of_nil in H60].
      apply list_elem_of_singleton in H60. discriminate H60.
  - destruct (graphFetch_null_resolver ENS name _ w1 allRecords
                d ds Hq Hr Hl) as [Hthrow _].
    rewrite Hthrow in Hfetch; [done|]. by exists "texts".
Qed.

(** X17.  A lookup whose options narrow the request (neither [texts] nor
    [coinTypes] is [true]) leaves the heap as it was and makes no index
    query and no name lookup, whatever its outcome: for a name it awaits an
    initial part of the two contract getters followed by one [resolve], for
    an address an initial part of the universal resolver's getter followed
    by one [reverse]. *)
Theorem X17_narrowed_lookup_awaits_resolver_only ENS s options w :
  (wantsAll options w).1 = Ok false →
  let w' := (getProfile L ENS s options w).2 in
  heap w' = heap w ∧
  ∃ tail,
    log w' = log w ++ tail ∧
    if Str.includesChar "." s
    then ∃ encodedName data, tail `prefix_of` forwardAwaits encodedName data
    else ∃ encodedNode calls,
           tail `prefix_of` reverseAwaits encodedNode calls.
Proof.
  intros Hw w'. unfold w'. clear w'.
  destruct (getProfile L ENS s options w) as [r w'] eqn:E. cbn [snd].
  revert E. unfold getProfile.
  destruct options as [l|]; [|done].
  destruct (Str.includesChar "." s).
  - unfold getProfileFromName. unfold bind at 1.
    rewrite (wantsAll_run _ _ _ Hw). unfold bind, lift, defined.
    cbv beta iota. intros E.
    assert (w' = (getDataForName L ENS s l w).2) as ->.
    { by destruct (getDataForName L ENS s l w) as [[?|?] ?]; injection E. }
    destruct (getDataForName L ENS s l w) as [r2 w2] eqn:E2.
    apply getDataForName_effects in E2
      as [Hh (tail & en & data & Hlog & Htail)].
    split; [done|]. exists tail. split; [done|]. by exists en, data.
  - unfold getProfileFromAddress. unfold bind at 1.
    rewrite (wantsAll_run _ _ _ Hw). unfold bind, lift, defined.
    cbv beta iota. intros E.
    assert (w' = (getDataForAddress L ENS s l w).2) as ->.
    { by destruct (getDataForAddress L ENS s l w) as [[?|?] ?]; injection E. }
    destruct (getDataForAddress L ENS s l w) as [r2 w2] eqn:E2.
    apply getDataForAddress_effects in E2
      as [Hh (tail & en & cs & Hlog & Htail)].
    split; [done|]. exists tail. split; [done|]. by exists en, cs.
Qed.

End ShortcutProperties.

(** * The content hash requested as [true] *)

Section RequestedContentHash.
Context (L : Codecs) {D : Type}.

Lemma ofKind_absent k ds (cs : list (Call D)) rs :
  Forall (λ c, c_type c ≠ k) cs →
  returnedRecords L ds cs = Ok rs → ofKind k rs = [].
Proof.
  intros Hkinds Hrs.
  destruct (ofKind k rs) as [|x xs] eqn:E; [done|]. exfalso.
  assert (x ∈ ofKind k rs) as [Hk Hx]%elem_of_ofKind by (rewrite E; left).
  destruct (returnedRecords_source L _ _ _ _ Hrs Hx)
    as (i & c & item & Hi & _ & Hfmt).
  apply formatItem_kept in Hfmt as (_ & Hty & _).
  rewrite Forall_forall in Hkinds.
  apply (Hkinds c); [by eapply list_elem_of_lookup_2|congruence].
Qed.

(** X18.  With [contentHash: true] and the answers aligned with a call
    list whose one contenthash call comes last, as the builders make it,
    the [contentHash] of the output is the hexlified bytes of the last
    answer, or [null] when they are all zero. *)
Theorem X18_requested_content_hash ds (cs : list (Call D)) c item bs options
    recs :
  prop options "contentHash" = VBool true →
  Forall (λ c', c_type c' ≠ KContenthash) cs → c_type c = KContenthash →
  length ds = length cs → decodeBytes L item = Ok bs →
  formatRecords L (ds ++ [item]) (cs ++ [c]) options = Ok recs →
  contentHash recs =
    Some (if Hex.allZero bs then None else Some (Hex.hexlify bs)).
Proof.
  intros Hopt Hkinds Hc Hlen Hbs (rs & Hrs & Hch & _)%formatRecords_ok.
  rewrite Hopt in Hch. cbn in Hch. injection Hch as <-. f_equal.
  unfold returnedRecords in Hrs. rewrite mapItems_app in Hrs by done.
  destruct (mapItems L 0 ds cs) as [rs1|] eqn:E1; [|done]. cbn [rbind] in Hrs.
  rewrite mapItems_cons, formatItem_contenthash, Hbs in Hrs by done.
  cbn in Hrs. injection Hrs as <-.
  rewrite omap_app. unfold ofKind. rewrite filter_app.
  assert (returnedRecords L ds cs = Ok (omap id rs1)) as Hrs1
    by (unfold returnedRecords; by rewrite E1).
  pose proof (ofKind_absent KContenthash _ _ _ Hkinds Hrs1) as Hnone.
  unfold ofKind in Hnone. rewrite Hnone.
  by destruct (Hex.allZero bs).
Qed.

End RequestedContentHash.


(** * The further properties at concrete inputs *)

Section FurtherExamples.
Import Demo.

(** X6, at an input: coin type 60 asked twice gives two calls. *)
Lemma X6_call_list_is_the_request_witness :
  ∃ calls,
    forwardCalls demoCodecs (Some demoPublicResolver) "alice.eth" twice60
      = Ok calls ∧
    descr <$> calls = [("60", KAddr); ("60", KAddr)].
Proof.
  eexists.
  match goal with
  | |- ?run ∧ _ => assert run as Hrun by (vm_compute; reflexivity)
  end.
  split; [exact Hrun|].
  exact (proj1 (X6_call_list_is_the_request demoCodecs
                  (Some demoPublicResolver) "alice.eth" twice60) _ Hrun).
Defined.

(** X7, at an input: an addr call and the contenthash call. *)
Lemma X7_forward_call_data_witness :
  ∃ calls,
    forwardCalls demoCodecs (Some demoPublicResolver) "alice.eth"
      withContentHash = Ok calls ∧
    length calls = 2 ∧
    Forall (λ c,
      match c_type c with
      | KContenthash =>
          c_key c = "contentHash" ∧
          encodeData (Some demoPublicResolver) "contenthash(bytes32)"
            [AStr "alice.eth"] = Ok (c_data c)
      | k =>
          ∃ node, namehash demoCodecs "alice.eth" = Ok node ∧
            encodeData (Some demoPublicResolver)
              (kindName k +:+ functionArgsOf k)
              [AStr node; AStr (c_key c)] = Ok (c_data c)
      end) calls.
Proof.
  eexists.
  match goal with
  | |- ?run ∧ _ => assert run as Hrun by (vm_compute; reflexivity)
  end.
  split; [exact Hrun|]. split; [reflexivity|].
  exact (X7_forward_call_data demoCodecs (Some demoPublicResolver)
           "alice.eth" withContentHash _ Hrun).
Defined.

(** X8, at an input: a text call and an addr call, both for the key "60". *)
Lemma X8_reverse_call_data_witness :
  ∃ calls,
    reverseCalls demoCodecs text60coin60 = Ok calls ∧
    length calls = 2 ∧
    Forall (λ c,
      match c_type c with
      | KContenthash =>
          c_key c = "contentHash" ∧
          c_data c = mkResolverData "contenthash(bytes32)" []
      | k =>
          sig (c_data c) = kindName k +:+ functionArgsOf k ∧
          if bool_decide (c_key c = "") then rd_data (c_data c) = []
          else ∃ enc, abiEncode demoCodecs "(bytes32" (c_key c) = Ok enc ∧
                      rd_data (c_data c) = [mkResolverArg "(bytes32" enc]
      end) calls.
Proof.
  eexists.
  match goal with
  | |- ?run ∧ _ => assert run as Hrun by (vm_compute; reflexivity)
  end.
  split; [exact Hrun|]. split; [reflexivity|].
  exact (X8_reverse_call_data demoCodecs text60coin60 _ Hrun).
Defined.

(** X10, at an input: a forward resolution of coin type 60 returns, and
    its request names "60". *)
Lemma X10_returns_only_with_60_witness :
  ∃ options,
    heap (start (Some only60)) !! 0 = Some options ∧
    "60" ∈ (requested options).*1.
Proof.
  refine (X10_returns_only_with_60 demoCodecs
            (aliceENS [answer addrA] "0xe301") "alice.eth" 0
            (start (Some only60)) _ _ (or_introl _)).
  vm_compute; reflexivity.
Defined.

(** X19, at an input: the resolver answers twenty zero bytes for coin
    type 60; the address is the zero address and no record is listed. *)
Lemma X19_forward_result_witness :
  (getDataForName demoCodecs (aliceENS [answer (replicate 20 x00)] "0xe301")
     "alice.eth" 0 (start (Some only60))).1 =
  Ok (mkProfileResult None
        (Some "0x0000000000000000000000000000000000000000")
        (Some (Some (mkRecords None None (Some [])))) None).
Proof.
  refine (f_equal fst (proj1 (X19_forward_result demoCodecs
    (aliceENS [answer (replicate 20 x00)] "0xe301") "alice.eth" 0
    (start (Some only60)) only60
    [mkCall "60" _ KAddr] _ _
    [Hex.hexlify (answer (replicate 20 x00))] 0 _ (replicate 20 x00)
    (mkRecords None None (Some [])) _ _ _ _ _ _))).
  - reflexivity.
  - eexists _, _, _, _. repeat split; vm_compute; reflexivity.
  - reflexivity.
  - reflexivity.
  - vm_compute; reflexivity.
  - vm_compute; reflexivity.
Defined.

(** X11, at an input: the same address in upper and in lower case. *)
Lemma X11_reverse_ignores_case_witness :
  getDataForAddress demoCodecs (aliceENS [answer addr1] "0xe301") upperAddr1 0
    (start (Some only60)) =
  getDataForAddress demoCodecs (aliceENS [answer addr1] "0xe301") lowerAddr1 0
    (start (Some only60)).
Proof.
  apply (X11_reverse_ignores_case demoCodecs). reflexivity.
Defined.

(** X13, at an input: a domain without resolver; the object asking for
    everything makes [graphFetch] throw, the one asking for coin type 60
    comes back as it is. *)
Lemma X13_graphFetch_without_resolver_witness :
  graphFetch (noResolverENS []) "alice.eth" 0 (start (Some allRecords))
    = (Throw TypeError, mkWorld [allRecords] [EvGraph "alice.eth"]) ∧
  graphFetch (noResolverENS []) "alice.eth" 0 (start (Some only60))
    = (Ok 0, mkWorld [only60] [EvGraph "alice.eth"]).
Proof.
  split.
  - refine (proj1 (X13_graphFetch_without_resolver (noResolverENS [])
      "alice.eth" 0 (start (Some allRecords)) allRecords (mkDomain None) []
      _ _ _) _); try reflexivity.
    exists "texts". reflexivity.
  - refine (proj2 (X13_graphFetch_without_resolver (noResolverENS [])
      "alice.eth" 0 (start (Some only60)) only60 (mkDomain None) []
      _ _ _) _); try reflexivity.
    intros k. unfold prop, only60.
    destruct (decide (k = "coinTypes")) as [->|Hne].
    + discriminate.
    + rewrite lookup_singleton_ne by done. discriminate.
Defined.

(** X14, at an input: an address whose name is alice.eth, no options. *)
Lemma X14_address_path_is_name_path_witness :
  getProfileFromAddress demoCodecs (aliceENS [answer addrA] "0xe301") hexA
    None (start None) =
  (let (r, w') :=
     getProfileFromName demoCodecs (aliceENS [answer addrA] "0xe301")
       "alice.eth" None (mkWorld [] [EvGetName hexA]) in
   (rmap (λ r, mkProfileResult (Some (NameStr "alice.eth")) None
                 (pr_records r) (Some true)) r, w')).
Proof.
  exact (X14_address_path_is_name_path demoCodecs
           (aliceENS [answer addrA] "0xe301") hexA None (start None)
           (mkNameResult "alice.eth" true) eq_refl eq_refl eq_refl).
Defined.

(** X15, at an input: the caller's object asked for everything; after the
    lookup it holds the index's values and no longer asks for all. *)
Lemma X15_options_stay_concretized_witness :
  let w' := (getProfileFromName demoCodecs (aliceENS [answer addrA] "0xe301")
               "alice.eth" (Some 0) (start (Some allRecords))).2 in
  heap w' = [concretized (indexed "0xe301") allRecords] ∧
  (wantsAll (Some 0) w').1 = Ok false.
Proof.
  destruct (X15_options_stay_concretized demoCodecs
              (aliceENS [answer addrA] "0xe301") "alice.eth" 0
              (start (Some allRecords)) allRecords
              (mkDomain (Some (indexed "0xe301"))) [] (indexed "0xe301")
              eq_refl eq_refl eq_refl eq_refl) as [Hheap Hnarrow].
  split; [exact Hheap|]. apply Hnarrow; discriminate.
Defined.

(** X16, at an input: the lookup without options returns and the index
    lists coin type 60. *)
Lemma X16_no_options_needs_indexed_60_witness :
  ∃ d ds resp keys,
    gqlRequest (aliceENS [answer addrA] "0xe301") "alice.eth" = Ok (d :: ds) ∧
    resolver d = Some resp ∧
    (prop resp "texts" = VArr keys ∨ prop resp "coinTypes" = VArr keys) ∧
    "60" ∈ keys.
Proof.
  refine (X16_no_options_needs_indexed_60 demoCodecs
            (aliceENS [answer addrA] "0xe301") "alice.eth" (start None) _ _ _).
  vm_compute; reflexivity.
Defined.

(** X17, at an input: a name lookup narrowed to coin type 60. *)
Lemma X17_narrowed_lookup_awaits_resolver_only_witness :
  let w' := (getProfile demoCodecs (aliceENS [answer addrA] "0xe301")
               "alice.eth" (Some 0) (start (Some only60))).2 in
  heap w' = heap (start (Some only60)) ∧
  ∃ tail,
    log w' = log (start (Some only60)) ++ tail ∧
    ∃ encodedName data, tail `prefix_of` forwardAwaits encodedName data.
Proof.
  exact (X17_narrowed_lookup_awaits_resolver_only demoCodecs
           (aliceENS [answer addrA] "0xe301") "alice.eth" (Some 0)
           (start (Some only60)) eq_refl).
Defined.

(** X18, at an input: the addr answer, then the answer 0xe301 to the
    contenthash call. *)
Lemma X18_requested_content_hash_witness :
  contentHash (mkRecords (Some (Some "0xe301")) None (Some [recordA]))
    = Some (if Hex.allZero [xe3; x01] then None
            else Some (Hex.hexlify [xe3; x01])).
Proof.
  refine (X18_requested_content_hash demoCodecs
            [Hex.hexlify (answer addrA)] [coinCall "60"] contentHashCall
            (Hex.hexlify (answer [xe3; x01])) [xe3; x01] withContentHash
            (mkRecords (Some (Some "0xe301")) None (Some [recordA]))
            _ _ _ _ _ _).
  - reflexivity.
  - repeat constructor. discriminate.
  - reflexivity.
  - reflexivity.
  - vm_compute; reflexivity.
  - vm_compute; reflexivity.
Defined.

End FurtherExamples.
